(** * CloudWatch data source samples: the connectors' transforms

    A shallow embedding of the JavaScript sample connectors (moving average,
    time shift, multi region, filter, histogram) and the properties of their
    numeric transforms.

    Conventions of the embedding.
    - JavaScript numbers are IEEE doubles.  Where only timestamps, counts
      and the structure of the result matter, sample values and thresholds
      are taken as exact rationals ([Q], compared with [==]), and the
      histogram's logarithmic binning, which needs [Math.log] and
      [Math.exp], is taken over the reals ([R]); rounding error, NaN and the
      infinities are outside those parts.  The statistics of the filter,
      whose sums round, are embedded with the numbers and their operations
      as parameters ([NumberFilter]) and run on binary64 floats ([Doubles]).
    - Epoch seconds, bin numbers and counters are integers ([Z]).
    - A [Date] returned by the metric backend is a whole-second instant and is
      represented by its epoch second, so [ts.getTime() / 1000] and the
      [toISOString] key of a [Date] are both the represented integer.
    - An object used as a hash map keyed by timestamp is a [gmap Z _].
    - A [for (time = a; time < EndTime; time += Period)] loop is run with
      fuel; [None] stands for a loop that never leaves. *)

From Stdlib Require Import ZArith QArith Qround Qminmax Reals Psatz Lia List String Ascii
  DecimalString DecimalZ.
From Stdlib Require Floats Uint63.
From stdpp Require Import base option list sorting gmap.
Import ListNotations.

Local Open Scope Z_scope.

(** ** Shared data model *)

(** One entry of [MetricDataResults], both as the backend returns it and as a
    connector hands it back.  Properties a given object does not carry are
    [None]. *)
Record MetricData := {
  Id : option string;
  Label : string;
  Timestamps : list Z;
  Values : list Q;
  Status : option string;
  StatusCode : option string;
}.

(** A thrown [Error(message, { cause })]. *)
Record Exn := { message : string; cause : option string }.

Definition ValidationError (msg : string) : Exn :=
  {| message := msg; cause := Some "Validation"%string |}.

(** An error raised by the runtime itself (a [TypeError]) has no [cause]. *)
Definition RuntimeError (msg : string) : Exn :=
  {| message := msg; cause := None |}.

(** What [exports.handler] returns. *)
Inductive Response :=
  | MetricDataResults (series : list MetricData)
  | Description (DataSourceConnectorName : string)
  | Error (Code Value : string).

(** The [catch] clause of every [exports.handler]:
    [code = err.cause || 'InternalError'] (the empty string is falsy). *)
Definition errorCode (err : Exn) : string :=
  match cause err with
  | Some c => if String.eqb c "" then "InternalError"%string else c
  | None => "InternalError"%string
  end.

Definition catchToResponse (err : Exn) : Response :=
  Error (errorCode err) (message err).

(** [for (let time = start; time < EndTime; time += Period) body]. *)
Fixpoint forTime {St : Type} (fuel : nat) (time EndTime Period : Z)
    (body : Z → St → St) (st : St) : option St :=
  if time <? EndTime then
    match fuel with
    | O => None
    | S fuel' => forTime fuel' (time + Period) EndTime Period body (body time st)
    end
  else Some st.

(** The number of times the loop body runs when [Period] is positive. *)
Definition iterations (start EndTime Period : Z) : nat :=
  Z.to_nat ((EndTime - start + Period - 1) / Period).

(** The timestamps the loop visits: [start], [start + Period], ... *)
Fixpoint gridFrom (n : nat) (start Period : Z) : list Z :=
  match n with
  | O => []
  | S n' => start :: gridFrom n' (start + Period) Period
  end.

Definition grid (start EndTime Period : Z) : list Z :=
  gridFrom (iterations start EndTime Period) start Period.

(** [map[key(ts)] = Values[index]] for every timestamp in turn: a later
    entry overwrites an earlier one, and a timestamp without a value at its
    index is stored as [undefined], which reads like an absent key. *)
Fixpoint fillTimestampMap (index : nat) (timestamps : list Z) (values : list Q)
    (m : gmap Z Q) : gmap Z Q :=
  match timestamps with
  | [] => m
  | ts :: rest =>
      fillTimestampMap (S index) rest values
        (match values !! index with
         | Some v => <[ts := v]> m
         | None => delete ts m
         end)
  end.

Definition buildTimestampMap (metricData : MetricData) : gmap Z Q :=
  fillTimestampMap 0 (Timestamps metricData) (Values metricData) ∅.

(** The sum of a list of values, as the reference definitions take it. *)
Definition Qsum (l : list Q) : Q := fold_right Qplus 0%Q l.

(** One sample is recorded before another. *)
Definition earlier (p q : Z * Q) : Prop := p.1 < q.1.

(** ** Moving average connector *)

Module MovingAverage.

Record WalkState := {
  windowOfValues : list (option Q);
  currentSampleCount : Z;
  sampleTotal : Q;
  averagedTimestamps : list Z;
  averagedValues : list Q;
}.

Definition walkStep (timestampMap : gmap Z Q) (StartTime : Z)
    (time : Z) (st : WalkState) : WalkState :=
  let value := timestampMap !! time in
  let window := windowOfValues st ++ [value] in
  let '(count, total) :=
    match value with
    | Some v => (currentSampleCount st + 1, (sampleTotal st + v)%Q)
    | None => (currentSampleCount st, sampleTotal st)
    end in
  let '(window, count, total) :=
    if StartTime <? time then
      match window with
      | Some firstWindowValue :: rest => (rest, count - 1, (total - firstWindowValue)%Q)
      | None :: rest => (rest, count, total)
      | [] => (window, count, total)
      end
    else (window, count, total) in
  let emit := (StartTime <=? time) && (0 <? count) in
  {| windowOfValues := window;
     currentSampleCount := count;
     sampleTotal := total;
     averagedTimestamps :=
       if emit then averagedTimestamps st ++ [time] else averagedTimestamps st;
     averagedValues :=
       if emit then averagedValues st ++ [(total / inject_Z count)%Q]
       else averagedValues st |}.

Definition metricDataToMovingAverage (metricData : MetricData)
    (revisedStartTime StartTime EndTime Period : Z) : option MetricData :=
  let timestampMap := buildTimestampMap metricData in
  st ← forTime (iterations revisedStartTime EndTime Period)
         revisedStartTime EndTime Period (walkStep timestampMap StartTime)
         {| windowOfValues := []; currentSampleCount := 0; sampleTotal := 0%Q;
            averagedTimestamps := []; averagedValues := [] |};
  Some {| Id := None; Label := Label metricData;
          Timestamps := averagedTimestamps st; Values := averagedValues st;
          Status := Some "Complete"%string; StatusCode := None |}.

(** [timerData.Timestamps.reduce((acc, val) => (acc < val ? acc : val))];
    [reduce] without an initial value throws on an empty array. *)
Definition earliestOf (timestamps : list Z) : option Z :=
  match timestamps with
  | [] => None
  | first :: rest => Some (foldl (λ acc val, if acc <? val then acc else val) first rest)
  end.

(** [firstMetric.Id === 'm1' ? firstMetric : secondMetric] *)
Definition selectMetricData (firstMetric secondMetric : MetricData) : MetricData :=
  if decide (Id firstMetric = Some "m1"%string) then firstMetric else secondMetric.

(** [secondMetric.Id === 'timer' ? secondMetric : firstMetric] *)
Definition selectTimerData (firstMetric secondMetric : MetricData) : MetricData :=
  if decide (Id secondMetric = Some "timer"%string) then secondMetric else firstMetric.

(** The handler after argument-count, type and metric-name validation, given
    the two series the backend returned.  A [Date] is truthy, so the
    [earliestTimestamp ? ... : revisedStartTime] conditional always takes its
    first branch.  The handler also passes [numberOfDatapoints] on, as a sixth
    argument that [metricDataToMovingAverage] does not take. *)
Definition getMetricDataEventHandler (StartTime EndTime Period numberOfDatapoints : Z)
    (firstMetric secondMetric : MetricData) : option (Exn + list MetricData) :=
  if numberOfDatapoints <? 2 then
    Some (inl (ValidationError "Number of datapoints must be greater than 1"))
  else
    let revisedStartTime := StartTime - (numberOfDatapoints - 1) * Period in
    let metricData := selectMetricData firstMetric secondMetric in
    let timerData := selectTimerData firstMetric secondMetric in
    match earliestOf (Timestamps timerData) with
    | None => Some (inl (RuntimeError "Reduce of empty array with no initial value"))
    | Some earliestTimestamp =>
        averagedMetricData ←
          metricDataToMovingAverage metricData earliestTimestamp StartTime EndTime Period;
        Some (inr [averagedMetricData])
    end.

(** *** Reference: the trailing-window average *)

(** The [slots] grid timestamps that end at [time]. *)
Definition windowSlots (time Period slots : Z) : list Z :=
  (λ j, time - (slots - 1 - j) * Period) <$> seqZ 0 slots.

(** The samples present at the given timestamps. *)
Definition presentSamples (timestampMap : gmap Z Q) (times : list Z) : list Q :=
  omap (λ t, timestampMap !! t) times.

(** [sampleSum / sampleCount] over the present samples of the window; no
    value when the window has none. *)
Definition windowAverage (timestampMap : gmap Z Q) (time Period slots : Z) : option Q :=
  match presentSamples timestampMap (windowSlots time Period slots) with
  | [] => None
  | samples => Some (Qsum samples / inject_Z (Z.of_nat (length samples)))%Q
  end.

(** One point per visited timestamp from [StartTime] on whose window holds a
    sample. *)
Definition movingAverage_spec (timestampMap : gmap Z Q) (StartTime Period slots : Z)
    (times : list Z) : list (Z * Q) :=
  omap (λ time,
          if StartTime <=? time
          then pair time <$> windowAverage timestampMap time Period slots
          else None) times.

(** The timestamps whose values [windowOfValues] holds after [n] steps of the
    walk from [revisedStartTime]. *)
Fixpoint windowTimes (revisedStartTime StartTime Period : Z) (n : nat) : list Z :=
  match n with
  | O => []
  | S n' =>
      let time := revisedStartTime + Z.of_nat n' * Period in
      let times := windowTimes revisedStartTime StartTime Period n' ++ [time] in
      if StartTime <? time then tail times else times
  end.

(** The number of slots the window keeps: those from [revisedStartTime] up to
    [StartTime]. *)
Definition keptSlots (revisedStartTime StartTime Period : Z) : Z :=
  (StartTime - revisedStartTime) / Period + 1.

(** What the walk has established once it has visited [visited] and holds
    the values at [times] in its window. *)
Definition WalkInv (timestampMap : gmap Z Q) (StartTime Period slots : Z)
    (times visited : list Z) (st : WalkState) : Prop :=
  windowOfValues st = (λ t, timestampMap !! t) <$> times ∧
  currentSampleCount st = Z.of_nat (length (presentSamples timestampMap times)) ∧
  sampleTotal st == Qsum (presentSamples timestampMap times) ∧
  averagedTimestamps st
    = (movingAverage_spec timestampMap StartTime Period slots visited).*1 ∧
  Forall2 Qeq (averagedValues st)
    (movingAverage_spec timestampMap StartTime Period slots visited).*2.

End MovingAverage.

(** ** JavaScript string helpers *)

Definition isDigit (c : ascii) : bool :=
  let n := N_of_ascii c in ((48 <=? n) && (n <=? 57))%N.

Definition digitValue (c : ascii) : Z := Z.of_N (N_of_ascii c) - 48.

(** The longest run of decimal digits at the front of a string, the way a
    greedy [\d+] takes it, and what follows. *)
Fixpoint takeDigits (s : string) : string * string :=
  match s with
  | String c rest =>
      if isDigit c then let '(ds, tl) := takeDigits rest in (String c ds, tl)
      else (EmptyString, s)
  | EmptyString => (EmptyString, EmptyString)
  end.

(** [parseInt(s, 10)] on a string that starts with a digit: the value of the
    leading digit run; whatever follows it (a fraction, say) is ignored. *)
Definition parseInt (s : string) : Z :=
  fold_left (λ acc c, 10 * acc + digitValue c)
    (list_ascii_of_string (fst (takeDigits s))) 0.

Definition isWhiteSpace (c : ascii) : bool :=
  let n := N_of_ascii c in ((n =? 32) || ((9 <=? n) && (n <=? 13)))%N.

Fixpoint trimStart (s : list ascii) : list ascii :=
  match s with
  | c :: rest => if isWhiteSpace c then trimStart rest else s
  | [] => []
  end.

Definition trim (s : string) : string :=
  string_of_list_ascii
    (rev (trimStart (rev (trimStart (list_ascii_of_string s))))).

(** The string holds nothing but white space. *)
Definition allWhiteSpace (s : string) : Prop :=
  Forall (λ c, isWhiteSpace c = true) (list_ascii_of_string s).

(** [s.split(sep)] for a one-character separator. *)
Fixpoint splitAux (sep : ascii) (s : string) (field : string) : list string :=
  match s with
  | EmptyString => [field]
  | String c rest =>
      if Ascii.eqb c sep then field :: splitAux sep rest EmptyString
      else splitAux sep rest (field ++ String c EmptyString)%string
  end.

Definition split (sep : ascii) (s : string) : list string :=
  splitAux sep s EmptyString.

(** [s.replace(/c/g, d)] for single characters. *)
Fixpoint replaceAll (c d : ascii) (s : string) : string :=
  match s with
  | EmptyString => EmptyString
  | String x rest => String (if Ascii.eqb x c then d else x) (replaceAll c d rest)
  end.

(** [s.replace(/ +/g, ' ')]: every run of spaces becomes one space. *)
Fixpoint collapseSpaces (s : string) : string :=
  match s with
  | EmptyString => EmptyString
  | String c rest =>
      if Ascii.eqb c " " then
        match rest with
        | String c' _ =>
            if Ascii.eqb c' " " then collapseSpaces rest
            else String c (collapseSpaces rest)
        | EmptyString => String c EmptyString
        end
      else String c (collapseSpaces rest)
  end.

(** [`${n}`] for an integer. *)
Definition showZ (n : Z) : string := NilZero.string_of_int (Z.to_int n).

(** ** The full metric name *)

Module FullMetric.

Record Dimension := { Name : string; Value : string }.

Record Metric := {
  Namespace : string;
  MetricName : string;
  Dimensions : list Dimension;
}.

Definition malformed : string :=
  "Malformed full metric name, expected <Namespace>,<MetricName>,<DimPair Name 1>,<DimPair Value 1>,... etc".

Section Parse.
(** [decodeURIComponent] is taken as given; it throws a [URIError] on a
    malformed escape sequence. *)
Variable decodeURIComponent : string → Exn + string.

(** The loop [for (dimIndex = 2; dimIndex < metricFields.length - 1;
    dimIndex += 2)] over the fields from index 2 on: one dimension for each
    pair of fields; a last field without a partner is not visited. *)
Fixpoint dimensions (fields : list string) : Exn + list Dimension :=
  match fields with
  | name :: value :: rest =>
      match decodeURIComponent name with
      | inl err => inl err
      | inr name =>
          match decodeURIComponent value with
          | inl err => inl err
          | inr value =>
              match dimensions rest with
              | inl err => inl err
              | inr dims => inr ({| Name := name; Value := value |} :: dims)
              end
          end
      end
  | _ => inr []
  end.

(** A field read past the end of the array is [undefined], which
    [decodeURIComponent] turns into the string [undefined]. *)
Definition parseFullMetric (fullMetricString : string) : Exn + Metric :=
  let metricFields := trim <$> split "," fullMetricString in
  if (length metricFields <? 2)%nat || negb (length metricFields mod 2 =? 0)%nat then
    inl (ValidationError malformed)
  else
    match decodeURIComponent (nth 0 metricFields "undefined"%string) with
    | inl err => inl err
    | inr namespace =>
        match decodeURIComponent (nth 1 metricFields "undefined"%string) with
        | inl err => inl err
        | inr metricName =>
            match dimensions (drop 2 metricFields) with
            | inl err => inl err
            | inr dims =>
                inr {| Namespace := namespace; MetricName := metricName;
                       Dimensions := dims |}
            end
        end
    end.
End Parse.

(** The fields of a full metric name written out with commas between them,
    and the fields of a list of dimensions. *)
Fixpoint commaSeparated (fields : list string) : string :=
  match fields with
  | [] => EmptyString
  | [field] => field
  | field :: rest => (field ++ String "," (commaSeparated rest))%string
  end.

Definition dimensionFields (dims : list (string * string)) : list string :=
  flat_map (λ dim, [dim.1; dim.2]) dims.

End FullMetric.

(** ** Time shift connector *)

Module TimeShift.

(** One optional group [(?:(\d+)L)?] of the duration pattern: the digits and
    the rest when the digits are followed by [letter], else nothing taken. *)
Definition durationGroup (letter : ascii) (s : string) : option string * string :=
  match takeDigits s with
  | (String d ds, String c rest) =>
      if Ascii.eqb c letter then (Some (String d ds), rest) else (None, s)
  | _ => (None, s)
  end.

(** [[T]*] *)
Fixpoint skipT (s : string) : string :=
  match s with
  | String c rest => if Ascii.eqb c "T" then skipT rest else s
  | EmptyString => s
  end.

(** [(?:(\d+(?:\.\d{1,3})?)S)?] *)
Definition secondsGroup (s : string) : option string * string :=
  match takeDigits s with
  | (String d ds, String c rest) =>
      if Ascii.eqb c "S" then (Some (String d ds), rest)
      else if Ascii.eqb c "." then
        match takeDigits rest with
        | (String f fs, String c' rest') =>
            if Ascii.eqb c' "S" && (String.length (String f fs) <=? 3)%nat
            then (Some (String d ds ++ "." ++ String f fs)%string, rest')
            else (None, s)
        | _ => (None, s)
        end
      else (None, s)
  | _ => (None, s)
  end.

(** [/^P(?:(\d+)D)?[T]*(?:(\d+)H)?(?:(\d+)M)?(?:(\d+(?:\.\d{1,3})?)S)?$/.exec]:
    the four captured groups, or [None] when the string does not match. *)
Definition execDurationPattern (durationString : string)
    : option (option string * option string * option string * option string) :=
  match durationString with
  | String c rest =>
      if Ascii.eqb c "P" then
        let '(days, rest) := durationGroup "D" rest in
        let rest := skipT rest in
        let '(hours, rest) := durationGroup "H" rest in
        let '(mins, rest) := durationGroup "M" rest in
        let '(secs, rest) := secondsGroup rest in
        match rest with
        | EmptyString => Some (days, hours, mins, secs)
        | _ => None
        end
      else None
  | EmptyString => None
  end.

Definition parseISO8601DurationString (durationString : string) : Exn + Z :=
  match execDurationPattern durationString with
  | None => inl (ValidationError ("Unrecognized ISO duration " ++ durationString))
  | Some (p1, p2, p3, p4) =>
      let days := from_option parseInt 0 p1 in
      let hours := from_option parseInt 0 p2 in
      let mins := from_option parseInt 0 p3 in
      let secs := from_option parseInt 0 p4 in
      inr (((days * 24 + hours) * 60 + mins) * 60 + secs)
  end.

(** The shift interval as the specification words it: days, hours, minutes
    and seconds, the seconds with their fractional part. *)
Definition decimalValue (s : string) : Q :=
  let '(whole, rest) := takeDigits s in
  match rest with
  | String _ fraction =>
      (inject_Z (parseInt whole)
       + inject_Z (parseInt fraction) / inject_Z (10 ^ Z.of_nat (String.length fraction)))%Q
  | EmptyString => inject_Z (parseInt whole)
  end.

Definition shiftInterval_spec (durationString : string) : option Q :=
  match execDurationPattern durationString with
  | None => None
  | Some (p1, p2, p3, p4) =>
      let days := from_option parseInt 0 p1 in
      let hours := from_option parseInt 0 p2 in
      let minutes := from_option parseInt 0 p3 in
      let seconds := from_option decimalValue 0%Q p4 in
      Some (inject_Z (days * 86400 + hours * 3600 + minutes * 60) + seconds)%Q
  end.

Definition convertSecondsToHumanReadable (seconds : Z) : string :=
  let d := seconds / (3600 * 24) in
  let h := Z.rem seconds (3600 * 24) / 3600 in
  let m := Z.rem seconds 3600 / 60 in
  let s := Z.rem seconds 60 in
  let dDisplay := if 0 <? d then (showZ d ++ "d ")%string else ""%string in
  let hDisplay := if 0 <? h then (showZ h ++ "h ")%string else ""%string in
  let mDisplay := if 0 <? m then (showZ m ++ "m ")%string else ""%string in
  let sDisplay := if 0 <? s then (showZ s ++ "s ")%string else ""%string in
  trim (dDisplay ++ hDisplay ++ mDisplay ++ sDisplay).

(** The shift-interval and shift-count checks of [validateGetMetricDataRequest];
    the argument-count and type checks and the metric-name parsing are left
    out of the embedding. *)
Definition validateGetMetricDataRequest (shiftIntervalString : string)
    (numberOfShifts : Z) : Exn + (Z * Z) :=
  match parseISO8601DurationString shiftIntervalString with
  | inl err => inl err
  | inr shiftInterval =>
      if shiftInterval <=? 0 then
        inl (ValidationError ("Illegal shift interval '" ++ shiftIntervalString
                              ++ "' specified, must be > 0 seconds"))
      else if (numberOfShifts <? 1) || (10 <? numberOfShifts) then
        inl (ValidationError ("Number of shifts, " ++ showZ numberOfShifts
                              ++ ", must be between 1 and 10 inclusive"))
      else inr (shiftInterval, numberOfShifts)
  end.

(** The inner loop of [shiftFullMetricData] for one shift. *)
Definition shiftStep (fullMetricDataMap : gmap Z Q) (timeOffset : Z)
    (time : Z) (metric : list Z * list Q) : list Z * list Q :=
  let shiftedTimestamp := time - timeOffset in
  match fullMetricDataMap !! shiftedTimestamp with
  | Some value => (metric.1 ++ [time], metric.2 ++ [value])
  | None => metric
  end.

Definition shiftedMetric (fullMetricDataMap : gmap Z Q)
    (StartTime EndTime Period shiftInterval : Z) (i : Z) : option MetricData :=
  let timeOffset := i * shiftInterval in
  metric ← forTime (iterations StartTime EndTime Period) StartTime EndTime Period
             (shiftStep fullMetricDataMap timeOffset) ([], []);
  Some {| Id := None;
          Label := if i =? 0 then "current"%string
                   else ("- " ++ convertSecondsToHumanReadable timeOffset)%string;
          Timestamps := metric.1; Values := metric.2;
          Status := Some "Complete"%string; StatusCode := None |}.

Definition shiftFullMetricData (fullMetricData : MetricData)
    (StartTime EndTime Period shiftInterval numberOfShifts : Z)
    : option (list MetricData) :=
  let fullMetricDataMap := buildTimestampMap fullMetricData in
  mapM (shiftedMetric fullMetricDataMap StartTime EndTime Period shiftInterval)
       (seqZ 0 (numberOfShifts + 1)).

(** [StartTime - (StartTime % Period)]; [%] takes the sign of the dividend. *)
Definition roundedStart (StartTime Period : Z) : Z :=
  StartTime - Z.rem StartTime Period.

Definition getMetricDataEventHandler (StartTime EndTime Period : Z)
    (shiftIntervalString : string) (numberOfShifts : Z)
    (fullMetricData : MetricData) : option (Exn + list MetricData) :=
  match validateGetMetricDataRequest shiftIntervalString numberOfShifts with
  | inl err => Some (inl err)
  | inr (shiftInterval, numberOfShifts) =>
      timeshiftedData ←
        shiftFullMetricData fullMetricData (roundedStart StartTime Period)
          EndTime Period shiftInterval numberOfShifts;
      Some (inr timeshiftedData)
  end.

(** *** Reference: the samples on the walked grid *)

(** The points a shift by [timeOffset] yields over the visited timestamps:
    a point at [time] for every sample recorded at [time - timeOffset]. *)
Definition shiftedPoints (fullMetricDataMap : gmap Z Q) (timeOffset : Z)
    (times : list Z) : list (Z * Q) :=
  omap (λ time, pair time <$> fullMetricDataMap !! (time - timeOffset)) times.

(** A raw sample lies on the grid walked from [start]: in [[start, EndTime)]
    and a whole number of periods after [start]. *)
Definition onWalkedGrid (start EndTime Period : Z) (sample : Z * Q) : bool :=
  (start <=? sample.1) && (sample.1 <? EndTime) && ((sample.1 - start) mod Period =? 0).

(** A raw sample lies in the query window. *)
Definition inQueryWindow (StartTime EndTime : Z) (sample : Z * Q) : bool :=
  (StartTime <=? sample.1) && (sample.1 <? EndTime).

End TimeShift.

(** ** Filter connector *)

Module Filter.

Inductive Stat := MIN | MAX | AVG | SUM.
Inductive Condition := GT | GE | LT | LE | EQ | NE.

(** A parsed filter [{ stat, condition, value }]; the empty filter
    [{ stat: null }] is [None]. *)
Record Predicate := { stat : Stat; condition : Condition; value : Q }.

Definition parseStat (s : string) : option Stat :=
  if String.eqb s "MIN" then Some MIN
  else if String.eqb s "MAX" then Some MAX
  else if String.eqb s "AVG" then Some AVG
  else if String.eqb s "SUM" then Some SUM
  else None.

Definition parseCondition (s : string) : option Condition :=
  if String.eqb s ">" then Some GT
  else if String.eqb s "<" then Some LT
  else if String.eqb s "==" then Some EQ
  else if String.eqb s ">=" then Some GE
  else if String.eqb s "<=" then Some LE
  else if String.eqb s "!=" then Some NE
  else None.

Section Parse.
(** [parseFloat] is taken as given. *)
Variable parseFloat : string → Q.

Definition parseFilter (filterString : string) : Exn + option Predicate :=
  let filterParts := split " " (trim (collapseSpaces filterString)) in
  match filterParts with
  | [ EmptyString ] => inr None
  | [ statString; conditionString; valueString ] =>
      let value := parseFloat valueString in
      match parseStat statString with
      | None => inl (ValidationError ("Unrecognised stat, '" ++ statString ++ "' in filter"))
      | Some stat =>
          match parseCondition conditionString with
          | None =>
              inl (ValidationError
                     ("Unrecognised condition, '" ++ conditionString ++ "' in filter"))
          | Some condition =>
              inr (Some {| stat := stat; condition := condition; value := value |})
          end
      end
  | _ => inl (ValidationError ("Filter syntax error, '" ++ filterString
            ++ "' does not follow format '<stat> <condition> <value>' or empty, ''"))
  end.
End Parse.

Definition Qlt_bool (a b : Q) : bool := negb (Qle_bool b a).

(** The [forEach] over [values.slice(1)], started from [values[0]]. *)
Definition passStep (acc : Q * Q * Q) (value : Q) : Q * Q * Q :=
  let '(min, max, sum) := acc in
  let sum := (sum + value)%Q in
  if Qlt_bool value min then (value, max, sum)
  else if Qlt_bool max value then (min, value, sum)
  else (min, max, sum).

Definition linearPass (first : Q) (rest : list Q) : Q * Q * Q :=
  fold_left passStep rest (first, first, first).

Definition applyCondition (c : Condition) (stat threshold : Q) : bool :=
  match c with
  | GT => Qlt_bool threshold stat
  | GE => Qle_bool threshold stat
  | LT => Qlt_bool stat threshold
  | LE => Qle_bool stat threshold
  | EQ => Qeq_bool stat threshold
  | NE => negb (Qeq_bool stat threshold)
  end.

Definition statMatchesFilter (values : list Q) (filter : option Predicate) : bool :=
  match filter with
  | None => true
  | Some f =>
      match values with
      | [] => false
      | first :: rest =>
          let '(min, max, sum) := linearPass first rest in
          let avg := (sum / inject_Z (Z.of_nat (length values)))%Q in
          let stat :=
            match stat f with
            | AVG => avg
            | MIN => min
            | MAX => max
            | SUM => sum
            end in
          applyCondition (condition f) stat (value f)
      end
  end.

(** The handler once the filter is parsed and the expression's series are
    fetched; converting the kept series' timestamps to epoch seconds is the
    identity on the representation. *)
Definition getMetricDataEventHandler (filter : option Predicate)
    (metrics : list MetricData) : list MetricData :=
  List.filter (λ metric, statMatchesFilter (Values metric) filter) metrics.


End Filter.

(** ** Filter connector: the statistics over JavaScript numbers *)

(** [statMatchesFilter] once more, with the numbers and their operations as
    parameters instead of exact rationals.  In the code the values are IEEE
    doubles: [+] and [/] round, and [<], [<=] and [===] are all false of
    [NaN].  What is proved for every choice of the operations holds of that
    arithmetic too. *)
Module NumberFilter.
Import Filter.

Record Predicate (num : Type) := { stat : Stat; condition : Condition; value : num }.
Arguments stat {num} _.
Arguments condition {num} _.
Arguments value {num} _.

Section Numbers.
Context {num : Type}.
(** [a + b], [a / b], a length as a number, [a < b], [a <= b], [a === b];
    [a > b] is [b < a], [a >= b] is [b <= a], [a !== b] is [!(a === b)]. *)
Variable add : num → num → num.
Variable div : num → num → num.
Variable ofNat : nat → num.
Variable lt : num → num → bool.
Variable le : num → num → bool.
Variable eq : num → num → bool.

(** The [forEach] over [values.slice(1)], started from [values[0]]. *)
Definition passStep (acc : num * num * num) (value : num) : num * num * num :=
  let '(min, max, sum) := acc in
  let sum := add sum value in
  if lt value min then (value, max, sum)
  else if lt max value then (min, value, sum)
  else (min, max, sum).

Definition linearPass (first : num) (rest : list num) : num * num * num :=
  fold_left passStep rest (first, first, first).

(** [statMap = { AVG: avg, MIN: min, MAX: max, SUM: sum }], read by
    [statMap[filter.stat]]. *)
Definition statMap (first : num) (rest : list num) (s : Stat) : num :=
  let '(min, max, sum) := linearPass first rest in
  let avg := div sum (ofNat (length (first :: rest))) in
  match s with
  | AVG => avg
  | MIN => min
  | MAX => max
  | SUM => sum
  end.

(** The [switch (filter.condition)]. *)
Definition applyCondition (c : Condition) (stat threshold : num) : bool :=
  match c with
  | GT => lt threshold stat
  | GE => le threshold stat
  | LT => lt stat threshold
  | LE => le stat threshold
  | EQ => eq stat threshold
  | NE => negb (eq stat threshold)
  end.

Definition statMatchesFilter (values : list num) (filter : option (Predicate num)) : bool :=
  match filter with
  | None => true
  | Some f =>
      match values with
      | [] => false
      | first :: rest =>
          let stat := statMap first rest (stat f) in
          applyCondition (condition f) stat (value f)
      end
  end.

(** [metrics.filter((metric) => statMatchesFilter(metric.Values, filter))] *)
Definition getMetricDataEventHandler {Series : Type} (Values : Series → list num)
    (filter : option (Predicate num)) (metrics : list Series) : list Series :=
  List.filter (λ metric, statMatchesFilter (Values metric) filter) metrics.

(** *** Reference: the statistics of a series *)




(** The values added up in the order of the series. *)
Definition total (first : num) (rest : list num) : num := fold_left add rest first.

End Numbers.

End NumberFilter.

(** IEEE doubles, the numbers of the code. *)
Module Doubles.
Import PrimFloat.

Definition ofNat (n : nat) : float := of_uint63 (Uint63.of_Z (Z.of_nat n)).

(** The doubles nearest to 0.1, 0.2, 0.3, 0.6 and 0.7, and a series whose sum
    rounds. *)
Definition tenth : float := 0x1.999999999999ap-4%float.
Definition twoTenths : float := 0x1.999999999999ap-3%float.
Definition threeTenths : float := 0x1.3333333333333p-2%float.
Definition sixTenths : float := 0x1.3333333333333p-1%float.
Definition sevenTenths : float := 0x1.6666666666666p-1%float.

Definition tenths : list float := [tenth; twoTenths; threeTenths].
End Doubles.

(** ** Multi region connector *)

Module MultiRegion.

Inductive Argument := ArgString (s : string) | ArgNumber (n : Q).

Record Event := {
  EventType : string;
  Arguments : list Argument;
  StartTime : Z;
  EndTime : Z;
  Period : Z;
}.

(** How one [cloudwatch.getMetricData] promise settles, and when. *)
Inductive Settled :=
  | Fulfilled (results : list MetricData)
  | Rejected (reason : Exn).

Record Call := { settledAt : nat; outcome : Settled }.

(** The [Id] of the query sent to a region: [region.replace(/-/g, '_')]. *)
Definition queryId (region : string) : string := replaceAll "-" "_" region.


(** [await Promise.all(calls)]: the fulfilment values in the order of the
    calls, or the reason of the rejection that settles first (the earlier call
    when two settle together). *)
Definition earlierRejection (acc : option (nat * Exn)) (call : Call)
    : option (nat * Exn) :=
  match outcome call with
  | Fulfilled _ => acc
  | Rejected reason =>
      match acc with
      | Some (t, _) => if (settledAt call <? t)%nat then Some (settledAt call, reason) else acc
      | None => Some (settledAt call, reason)
      end
  end.

Definition fulfilment (call : Call) : list MetricData :=
  match outcome call with
  | Fulfilled results => results
  | Rejected _ => []
  end.

Definition promiseAll (calls : list Call) : Exn + list (list MetricData) :=
  match fold_left earlierRejection calls None with
  | Some (_, reason) => inl reason
  | None => inr (fulfilment <$> calls)
  end.

(** The callback of [getMetricDataResults.map]; reading a property of a
    missing first result, or of a missing [Id], is a [TypeError]. *)
Definition collate (getMetricDataResult : list MetricData) : Exn + MetricData :=
  match getMetricDataResult with
  | [] => inl (RuntimeError "Cannot read properties of undefined (reading 'Id')")
  | metric :: _ =>
      match Id metric with
      | None => inl (RuntimeError "Cannot read properties of undefined (reading 'replace')")
      | Some id =>
          inr {| Id := None; Label := replaceAll "_" "-" id;
                 Timestamps := Timestamps metric; Values := Values metric;
                 Status := Status metric; StatusCode := Some "Complete"%string |}
      end
  end.

Fixpoint collateAll (results : list (list MetricData)) : Exn + list MetricData :=
  match results with
  | [] => inr []
  | r :: rest =>
      match collate r with
      | inl err => inl err
      | inr metric =>
          match collateAll rest with
          | inl err => inl err
          | inr metrics => inr (metric :: metrics)
          end
      end
  end.

Section Handler.
(** The metric-name parser and the backend are taken as given: parsing
    yields a metric or throws; the backend settles one call per region. *)
Context {Metric : Type}.
Variable parseFullMetric : string → Exn + Metric.
Variable cloudwatch : string → Call.
Variable connectorName : string.

Definition validateGetMetricDataRequest (args : list Argument)
    : Exn + (Metric * string * list string) :=
  match args with
  | [ fullMetric; stat; regions ] =>
      match fullMetric, stat, regions with
      | ArgString fullMetric, ArgString stat, ArgString regions =>
          match parseFullMetric fullMetric with
          | inl err => inl err
          | inr metric =>
              let regionList :=
                List.filter (λ reg, negb (String.eqb reg ""))
                  (trim <$> split "," regions) in
              if (length regionList <? 1)%nat then
                inl (ValidationError "Expected at least one region")
              else inr (metric, stat, regionList)
          end
      | _, _, _ =>
          inl (ValidationError
                 "Unexpected argument type, expected (<string>, <string>, <string>)")
      end
  | _ => inl (ValidationError ("Expected 3 arguments, received "
                               ++ showZ (Z.of_nat (length args))))
  end.

Definition getMetricDataEventHandler (event : Event) : Exn + list MetricData :=
  match validateGetMetricDataRequest (Arguments event) with
  | inl err => inl err
  | inr (metric, stat, regionList) =>
      let getMetricDataCalls := cloudwatch <$> regionList in
      match promiseAll getMetricDataCalls with
      | inl err => inl err
      | inr getMetricDataResults => collateAll getMetricDataResults
      end
  end.

Definition handler (event : Event) : Response :=
  if String.eqb (EventType event) "GetMetricData" then
    match getMetricDataEventHandler event with
    | inr collatedResults => MetricDataResults collatedResults
    | inl err => catchToResponse err
    end
  else if String.eqb (EventType event) "DescribeGetMetricData" then
    Description connectorName
  else
    catchToResponse (ValidationError ("Unknown EventType: " ++ EventType event)).
End Handler.

End MultiRegion.

(** ** Hello world connector *)

Module HelloWorld.
Import MultiRegion.

Definition getValidationError (msg : string) : Response :=
  Error "Validation" msg.

(** [null] is [None]. *)
Definition validateGetMetricDataRequest (event : Event) : option Response :=
  match Arguments event with
  | [ metricName; value ] =>
      match metricName with
      | ArgString _ =>
          match value with
          | ArgNumber _ => None
          | ArgString _ => Some (getValidationError "Argument 2 must be a number")
          end
      | ArgNumber _ => Some (getValidationError "Argument 1 must be a string")
      end
  | _ => Some (getValidationError "Argument count must be 2")
  end.

(** The body of [while (currentTime < EndTime)]: one more data point. *)
Definition pushDataPoint (value : Q) (currentTime : Z) (data : list (Z * Q))
    : list (Z * Q) :=
  data ++ [(currentTime, value)].

Definition getMetricDataEventHandler (event : Event) : option Response :=
  match validateGetMetricDataRequest event with
  | Some validationError => Some validationError
  | None =>
      match Arguments event with
      | [ ArgString metricName; ArgNumber value ] =>
          data ← forTime (iterations (StartTime event) (EndTime event) (Period event))
                   (StartTime event) (EndTime event) (Period event)
                   (pushDataPoint value) [];
          Some (MetricDataResults
                  [ {| Id := None; Label := metricName;
                       Timestamps := fst <$> data; Values := snd <$> data;
                       Status := None; StatusCode := Some "Complete"%string |} ])
      | _ => None
      end
  end.

Definition handler (event : Event) : option Response :=
  if String.eqb (EventType event) "GetMetricData" then
    getMetricDataEventHandler event
  else if String.eqb (EventType event) "DescribeGetMetricData" then
    Some (Description "Echo")
  else
    Some (getValidationError ("Unknown EventType: " ++ EventType event)).

End HelloWorld.

(** ** Histogram connector *)

Module Histogram.

Definition DEFAULT_BUCKET_COUNT : Z := 100.
Definition MIN_BUCKET_COUNT : Z := 1.
Definition MAX_BUCKET_COUNT : Z := 500.
Definition ZERO_VALUE : R := 0%R.
Definition EPSILON : R := (1 / 10)%R.
Definition BIN_SIZE : R := ln (1 + EPSILON).
Definition MAX_BIN_RANGE : Z := 7000.
Definition MIN_BIN_RANGE : Z := - MAX_BIN_RANGE.
Definition ZERO_VALUE_BIN : Z := MIN_BIN_RANGE - 1.
Definition NEGATIVE_ONE_BIN_OFFSET : Z := -2 * MAX_BIN_RANGE - 2.
Definition SMALLEST_BIN : Z := NEGATIVE_ONE_BIN_OFFSET + MAX_BIN_RANGE.
Definition MIN_VALUE_FOR_HIST : R := (1 / 10000)%R.

Definition constrainBinToAllowedRange (binNumber : Z) : Z :=
  if MAX_BIN_RANGE <? binNumber then MAX_BIN_RANGE
  else if binNumber <? MIN_BIN_RANGE then MIN_BIN_RANGE
  else binNumber.

(** [Math.floor] of a real is [Int_part]. *)
Definition getBinNumber (value : R) : Z :=
  if Req_dec_T value ZERO_VALUE then ZERO_VALUE_BIN
  else
    let binNumber := Int_part (ln (Rabs value) / BIN_SIZE) in
    let binNumber := constrainBinToAllowedRange binNumber in
    if Rlt_dec ZERO_VALUE value then binNumber
    else NEGATIVE_ONE_BIN_OFFSET - binNumber.

Definition getValueWithinBin (binNum : Z) (offset : R) : R :=
  if binNum =? ZERO_VALUE_BIN then ZERO_VALUE
  else
    let '(binNumber, sign) :=
      if binNum <=? SMALLEST_BIN
      then (NEGATIVE_ONE_BIN_OFFSET - binNum, (-1)%R)
      else (binNum, 1%R) in
    let binNumber := constrainBinToAllowedRange binNumber in
    (sign * exp ((IZR binNumber + offset) * BIN_SIZE))%R.

Definition getBinTop (binNumber : Z) : R :=
  getValueWithinBin (binNumber + 1) 0%R.

(** One entry of [MetricDataQueries]: [Id] is [`m${binRound}`], kept as the
    integer; [Stat] is the percentile-range statistic. *)
Record MetricDefinition {Metric : Type} := {
  DefId : Z;
  DefLabel : string;
  DefMetric : Metric;
  DefStat : string;
  DefPeriod : Z;
}.
Global Arguments MetricDefinition : clear implicits.

Definition lowerCase (c : ascii) : ascii :=
  let n := N_of_ascii c in
  if ((65 <=? n) && (n <=? 90))%N then ascii_of_N (n + 32) else c.

Fixpoint lowerCaseString (s : string) : string :=
  match s with
  | EmptyString => EmptyString
  | String c rest => String (lowerCase c) (lowerCaseString rest)
  end.

(** [/millis/i.test(unit)] *)
Fixpoint containsMillis (unit : string) : bool :=
  String.prefix "millis" unit ||
  match unit with
  | EmptyString => false
  | String _ rest => containsMillis rest
  end.

Section Buckets.
Context {Metric : Type}.
(** [x.toPrecision(digits)] is taken as given. *)
Variable toPrecision : R → Z → string.

(** [unit] is the argument as the pattern tests see it: a missing argument
    reads ["undefined"]. *)
Definition getLabelForValue (value : R) (unit : string) : string :=
  let isMillis := containsMillis (lowerCaseString unit) in
  let isSeconds := String.prefix "sec" (lowerCaseString unit) in
  if isMillis then
    if Rlt_dec value 1000 then (toPrecision value 3 ++ "ms")%string
    else if Rlt_dec value 1000000 then (toPrecision (value / 1000) 3 ++ "s")%string
    else (toPrecision (value / 1000) 6 ++ "s")%string
  else if isSeconds then
    if Rlt_dec value 1 then (toPrecision (value * 1000) 3 ++ "ms")%string
    else if Rlt_dec value 1000 then (toPrecision value 3 ++ "s")%string
    else (toPrecision value 6 ++ "s")%string
  else toPrecision value 6.

Definition percentileRange (bottom top : R) : string :=
  ("PR(" ++ toPrecision bottom 6 ++ ":" ++ toPrecision top 6 ++ ")")%string.

(** [Math.round]: the nearest integer, halves upwards. *)
Definition round (x : Q) : Z := Qfloor (x + (1 # 2)).

Definition bucketFor (metric : Metric) (rangePeriod : Z) (bin : Q)
    (currentBucketBottom : R) : MetricDefinition Metric * R :=
  let binRound := round bin in
  let top := getBinTop binRound in
  let middle := ((top + currentBucketBottom) / 2)%R in
  let stat := percentileRange currentBucketBottom top in
  let label := getLabelForValue middle "undefined" in
  ({| DefId := binRound; DefLabel := label; DefMetric := metric;
      DefStat := stat; DefPeriod := rangePeriod |}, top).

(** [for (let bin = minBucketNum; bin <= maxBucketNum; bin += incBucket)] *)
Fixpoint bucketLoop (fuel : nat) (metric : Metric) (rangePeriod : Z)
    (maxBucketNum : Z) (incBucket : Q) (bin : Q) (currentBucketBottom : R)
    (metricDefinitions : list (MetricDefinition Metric))
    : option (list (MetricDefinition Metric)) :=
  if Qle_bool bin (inject_Z maxBucketNum) then
    match fuel with
    | O => None
    | S fuel' =>
        let '(definition, top) := bucketFor metric rangePeriod bin currentBucketBottom in
        bucketLoop fuel' metric rangePeriod maxBucketNum incBucket
          (bin + incBucket)%Q top (metricDefinitions ++ [definition])
    end
  else Some metricDefinitions.

Definition getHistogramMetricDefinitions (fuel : nat) (metric : Metric)
    (min max : R) (rangePeriod : Z) (bucketCount : Z)
    : option (list (MetricDefinition Metric)) :=
  let useZeroBucketForMin := if Rlt_dec min MIN_VALUE_FOR_HIST then true else false in
  let minBucketNum :=
    if useZeroBucketForMin then getBinNumber MIN_VALUE_FOR_HIST else getBinNumber min in
  let maxBucketNum := getBinNumber max in
  let numBuckets := maxBucketNum - minBucketNum in
  let incBucket := (inject_Z numBuckets / inject_Z bucketCount)%Q in
  bucketLoop fuel metric rangePeriod maxBucketNum incBucket
    (inject_Z minBucketNum) min [].
End Buckets.

(** [metricData.Id.replace(/^./, '')]: the identifier without its first
    character, which [.] matches unless it ends a line. *)
Definition dropFirstCharacter (id : string) : string :=
  match id with
  | String c rest =>
      if (N_of_ascii c =? 10)%N || (N_of_ascii c =? 13)%N then id else rest
  | EmptyString => id
  end.

(** The [forEach] of [getMetricBasicStats]: [basicStats[stat] = value], with
    [value] the first of the series' values, [undefined] when it has none. *)
Fixpoint collectBasicStats (results : list MetricData) (basicStats : gmap string Q)
    : Exn + gmap string Q :=
  match results with
  | [] => inr basicStats
  | metricData :: rest =>
      match Id metricData with
      | None => inl (RuntimeError "Cannot read properties of undefined (reading 'replace')")
      | Some id =>
          let stat := dropFirstCharacter id in
          collectBasicStats rest
            (match head (Values metricData) with
             | Some value => <[stat := value]> basicStats
             | None => delete stat basicStats
             end)
      end
  end.

(** The name under which a returned series is filed, if it has an [Id]. *)
Definition statKey (metricData : MetricData) : option string :=
  dropFirstCharacter <$> Id metricData.

(** [Math.round((percent * basicStats.SampleCount) / 100)] *)
Definition percentToCount (SampleCount percent : Q) : Z :=
  round (percent * SampleCount / 100).

(** The [forEach] of [getHistogramData] on one series: percentages become
    counts, and the unit, the second component, becomes [Count]. *)
Definition toCounts (SampleCount : Q) (metric : MetricData) : MetricData * string :=
  ({| Id := Id metric; Label := Label metric; Timestamps := Timestamps metric;
      Values := (λ percent, inject_Z (percentToCount SampleCount percent)) <$> Values metric;
      Status := Status metric; StatusCode := StatusCode metric |},
   "Count"%string).

(** The period [getMetricDataEventHandler] asks for:
    [timeRange - (timeRange % Period) + Period]. *)
Definition rangePeriod (StartTime EndTime Period : Z) : Z :=
  let timeRange := EndTime - StartTime in
  timeRange - Z.rem timeRange Period + Period.

End Histogram.

(** ** Sample requests and backend answers *)

Module Examples.

(** A metric with samples 3, 5 and 7 one minute apart, and a timer series
    that starts only at the first of them. *)
Definition metricSeries : MetricData :=
  {| Id := Some "m1"%string; Label := "CPUUtilization";
     Timestamps := [940; 1000; 1060]; Values := [3%Q; 5%Q; 7%Q];
     Status := None; StatusCode := Some "Complete"%string |}.

Definition lateTimer : MetricData :=
  {| Id := Some "timer"%string; Label := "timer";
     Timestamps := [940; 1000; 1060]; Values := [10%Q; 10%Q; 10%Q];
     Status := None; StatusCode := Some "Complete"%string |}.

(** A timer series that covers the whole lookback range of three slots. *)
Definition fullTimer : MetricData :=
  {| Id := Some "timer"%string; Label := "timer";
     Timestamps := [880; 940; 1000; 1060]; Values := [10%Q; 10%Q; 10%Q; 10%Q];
     Status := None; StatusCode := Some "Complete"%string |}.

(** Samples on whole minutes, fetched for a window that starts at 1000. *)
Definition minuteSeries : MetricData :=
  {| Id := Some "m1"%string; Label := "CallCount";
     Timestamps := [900; 960; 1020; 1080; 1140];
     Values := [0%Q; 1%Q; 2%Q; 3%Q; 4%Q];
     Status := None; StatusCode := Some "Complete"%string |}.

(** A request for three regions, the second of which the backend rejects. *)
Definition sampleEvent : MultiRegion.Event :=
  {| MultiRegion.EventType := "GetMetricData";
     MultiRegion.Arguments :=
       [MultiRegion.ArgString "AWS/EC2, CPUUtilization";
        MultiRegion.ArgString "Average";
        MultiRegion.ArgString "us-east-1, eu-west-1, ap-south-1"];
     MultiRegion.StartTime := 1000; MultiRegion.EndTime := 1600;
     MultiRegion.Period := 60 |}.

Definition sampleSeries : MetricData :=
  {| Id := Some "us_east_1"%string; Label := "m"; Timestamps := [1020]; Values := [1%Q];
     Status := None; StatusCode := None |}.


(** The hello world connector's own example, over ten minutes. *)
Definition helloEvent : MultiRegion.Event :=
  {| MultiRegion.EventType := "GetMetricData";
     MultiRegion.Arguments :=
       [MultiRegion.ArgString "metricLabel"; MultiRegion.ArgNumber 10%Q];
     MultiRegion.StartTime := 1000; MultiRegion.EndTime := 1600;
     MultiRegion.Period := 60 |}.

(** The series of two basic statistics, the maximum listed first. *)
Definition basicStatsResults : list MetricData :=
  [ {| Id := Some "mMaximum"%string; Label := "Maximum"; Timestamps := [1000];
       Values := [90%Q]; Status := None; StatusCode := Some "Complete"%string |};
    {| Id := Some "mMinimum"%string; Label := "Minimum"; Timestamps := [1000];
       Values := [2%Q]; Status := None; StatusCode := Some "Complete"%string |} ].

(** A backend on which every region answers with the series of its query,
    the regions settling in no particular order. *)
Definition healthySeries (region : string) : MetricData :=
  {| Id := Some (MultiRegion.queryId region); Label := "m";
     Timestamps := [1020]; Values := [1%Q]; Status := None; StatusCode := None |}.

Definition healthyBackend (region : string) : MultiRegion.Call :=
  {| MultiRegion.settledAt := 30 - String.length region;
     MultiRegion.outcome := MultiRegion.Fulfilled [healthySeries region] |}.

(** A backend whose answer for one region holds no series. *)
Definition emptyBackend (region : string) : MultiRegion.Call :=
  if String.eqb region "eu-west-1"
  then {| MultiRegion.settledAt := 1; MultiRegion.outcome := MultiRegion.Fulfilled [] |}
  else healthyBackend region.


End Examples.

(** * Properties *)

(** ** The timestamp walk *)

Section Walk.
Context {St : Type}.
Implicit Types (body : Z → St → St) (start EndTime Period : Z).

Lemma iterations_done start EndTime Period :
  0 < Period → EndTime <= start → iterations start EndTime Period = O.
Proof.
  intros HP Hle. unfold iterations.
  assert ((EndTime - start + Period - 1) / Period <= 0); [| lia].
  Z.div_mod_to_equations. nia.
Qed.

Lemma iterations_step start EndTime Period :
  0 < Period → start < EndTime →
  iterations start EndTime Period = S (iterations (start + Period) EndTime Period).
Proof.
  intros HP Hlt. unfold iterations.
  replace (EndTime - start + Period - 1)
    with (EndTime - (start + Period) + Period - 1 + 1 * Period) by lia.
  rewrite Z.div_add by lia.
  rewrite Z2Nat.inj_add; [lia | | lia].
  Z.div_mod_to_equations. nia.
Qed.

(** With a positive period the loop ends, having folded its body over the
    grid. *)
Lemma forTime_grid body EndTime Period :
  0 < Period →
  ∀ start st,
    forTime (iterations start EndTime Period) start EndTime Period body st
    = Some (fold_left (λ st time, body time st) (grid start EndTime Period) st).
Proof.
  intros HP start. unfold grid.
  remember (iterations start EndTime Period) as n eqn:Hn.
  revert start Hn. induction n as [| n IH]; intros start Hn st; simpl.
  - destruct (Z.ltb_spec start EndTime) as [Hlt | Hge]; [| done].
    rewrite iterations_step in Hn by done. discriminate.
  - destruct (Z.ltb_spec start EndTime) as [Hlt | Hge].
    + apply IH. rewrite iterations_step in Hn by done. by injection Hn.
    + rewrite iterations_done in Hn by done. discriminate.
Qed.
End Walk.

Lemma gridFrom_snoc (n : nat) (start Period : Z) :
  gridFrom (S n) start Period = gridFrom n start Period ++ [start + Z.of_nat n * Period].
Proof.
  revert start. induction n as [| n IH]; intros start.
  - simpl. f_equal. lia.
  - change (gridFrom (S (S n)) start Period)
      with (start :: gridFrom (S n) (start + Period) Period).
    rewrite IH. simpl. do 3 f_equal. lia.
Qed.

Lemma elem_of_gridFrom (n : nat) (start Period t : Z) :
  In t (gridFrom n start Period) ↔ ∃ k : nat, (k < n)%nat ∧ t = start + Z.of_nat k * Period.
Proof.
  revert start. induction n as [| n IH]; intros start; simpl.
  - split; [done | intros (k & Hk & _); lia].
  - rewrite IH. split.
    + intros [<- | (k & Hk & ->)].
      * exists O. split; lia.
      * exists (S k). split; lia.
    + intros (k & Hk & ->). destruct k as [| k].
      * left. lia.
      * right. exists k. split; lia.
Qed.

(** The walk visits exactly the timestamps [start + k * Period] below
    [EndTime]. *)
Lemma elem_of_grid (start EndTime Period t : Z) :
  0 < Period →
  In t (grid start EndTime Period) ↔
  start <= t < EndTime ∧ (t - start) mod Period = 0.
Proof.
  intros HP. unfold grid. rewrite elem_of_gridFrom. unfold iterations. split.
  - intros (k & Hk & ->).
    assert (Z.of_nat k < (EndTime - start + Period - 1) / Period) as Hk' by lia.
    split.
    + revert Hk'. Z.div_mod_to_equations. nia.
    + replace (start + Z.of_nat k * Period - start) with (Z.of_nat k * Period) by lia.
      apply Z.mod_mul. lia.
  - intros [[Hlo Hhi] Hmod].
    exists (Z.to_nat ((t - start) / Period)).
    assert (t - start = Period * ((t - start) / Period)) as Hdiv.
    { rewrite (Z.div_mod (t - start) Period) at 1 by lia. lia. }
    assert (0 <= (t - start) / Period) by (apply Z.div_pos; lia).
    split.
    + apply Z2Nat.inj_lt; [lia | |].
      * apply Z.div_pos; lia.
      * apply Z.div_lt_upper_bound; [lia |].
        revert Hdiv. Z.div_mod_to_equations. nia.
    + rewrite Z2Nat.id by lia. lia.
Qed.

Lemma gridFrom_sorted (n : nat) (start Period : Z) :
  0 < Period → StronglySorted Z.lt (gridFrom n start Period).
Proof.
  intros HP. revert start. induction n as [| n IH]; intros start; simpl.
  - constructor.
  - constructor; [apply IH |].
    apply Forall_forall. intros t Ht.
    apply list_elem_of_In, elem_of_gridFrom in Ht as (k & _ & ->). nia.
Qed.

Module HistogramFacts.
Import Histogram.

Lemma BIN_SIZE_pos : (0 < BIN_SIZE)%R.
Proof.
  unfold BIN_SIZE, EPSILON. rewrite <- ln_1.
  apply ln_increasing; lra.
Qed.

Lemma Int_part_mono (x y : R) : (x <= y)%R → Int_part x <= Int_part y.
Proof.
  intros Hxy.
  destruct (base_Int_part x) as [Hx _], (base_Int_part y) as [_ Hy].
  assert (H : (IZR (Int_part x) < IZR (Int_part y + 1))%R).
  { rewrite plus_IZR. lra. }
  apply lt_IZR in H. lia.
Qed.

Lemma constrainBinToAllowedRange_mono (a b : Z) :
  a <= b → constrainBinToAllowedRange a <= constrainBinToAllowedRange b.
Proof.
  unfold constrainBinToAllowedRange, MIN_BIN_RANGE, MAX_BIN_RANGE.
  intros Hab. repeat case_match; lia.
Qed.

Lemma constrainBinToAllowedRange_range (a : Z) :
  MIN_BIN_RANGE <= constrainBinToAllowedRange a <= MAX_BIN_RANGE.
Proof.
  unfold constrainBinToAllowedRange, MIN_BIN_RANGE, MAX_BIN_RANGE.
  repeat case_match; lia.
Qed.

Lemma getBinNumber_zero : getBinNumber 0 = ZERO_VALUE_BIN.
Proof.
  unfold getBinNumber, ZERO_VALUE. destruct (Req_dec_T 0 0); [done | lra].
Qed.

Lemma getBinNumber_pos (x : R) :
  (0 < x)%R →
  getBinNumber x = constrainBinToAllowedRange (Int_part (ln x / BIN_SIZE)).
Proof.
  intros Hx. unfold getBinNumber, ZERO_VALUE.
  destruct (Req_dec_T x 0); [lra |].
  destruct (Rlt_dec 0 x); [| lra].
  by rewrite Rabs_pos_eq by lra.
Qed.

Lemma getBinNumber_neg (x : R) :
  (x < 0)%R →
  getBinNumber x =
  NEGATIVE_ONE_BIN_OFFSET - constrainBinToAllowedRange (Int_part (ln (- x) / BIN_SIZE)).
Proof.
  intros Hx. unfold getBinNumber, ZERO_VALUE.
  destruct (Req_dec_T x 0); [lra |].
  destruct (Rlt_dec 0 x); [lra |].
  by rewrite Rabs_left by lra.
Qed.

Lemma getBinNumber_pos_range (x : R) :
  (0 < x)%R → MIN_BIN_RANGE <= getBinNumber x <= MAX_BIN_RANGE.
Proof.
  intros Hx. rewrite getBinNumber_pos by done.
  apply constrainBinToAllowedRange_range.
Qed.

Lemma getBinNumber_neg_range (x : R) :
  (x < 0)%R →
  NEGATIVE_ONE_BIN_OFFSET - MAX_BIN_RANGE <= getBinNumber x <= NEGATIVE_ONE_BIN_OFFSET - MIN_BIN_RANGE.
Proof.
  intros Hx. rewrite getBinNumber_neg by done.
  pose proof (constrainBinToAllowedRange_range (Int_part (ln (- x) / BIN_SIZE))) as H.
  revert H. unfold SMALLEST_BIN, NEGATIVE_ONE_BIN_OFFSET, MIN_BIN_RANGE, MAX_BIN_RANGE. lia.
Qed.

Lemma getBinNumber_mono (a b : R) :
  (0 < a)%R → (a < b)%R → getBinNumber a <= getBinNumber b.
Proof.
  intros Ha Hab. rewrite !getBinNumber_pos by lra.
  apply constrainBinToAllowedRange_mono, Int_part_mono.
  pose proof BIN_SIZE_pos as Hw.
  pose proof (ln_increasing a b Ha Hab) as Hln.
  unfold Rdiv. apply Rmult_le_compat_r; [| lra].
  left. by apply Rinv_0_lt_compat.
Qed.

(** C4: the bin mapping is monotone on the positive reals, never sends a
    nonzero value and its negation to the same bin, and reserves the constant
    bin [ZERO_VALUE_BIN] for zero, which no nonzero value reaches. *)
Theorem getBinNumber_monotone_sign_aware :
  (∀ a b : R, (0 < a)%R → (a < b)%R → getBinNumber a <= getBinNumber b) ∧
  (∀ x : R, x ≠ 0%R → getBinNumber (- x) ≠ getBinNumber x) ∧
  getBinNumber 0 = ZERO_VALUE_BIN ∧
  (∀ x : R, x ≠ 0%R → getBinNumber x ≠ getBinNumber 0).
Proof.
  split; [exact getBinNumber_mono |].
  assert (Hsep : ∀ p n : R, (0 < p)%R → (n < 0)%R → getBinNumber n < ZERO_VALUE_BIN < getBinNumber p).
  { intros p n Hp Hn.
    pose proof (getBinNumber_pos_range p Hp) as H1.
    pose proof (getBinNumber_neg_range n Hn) as H2.
    revert H1 H2.
    unfold ZERO_VALUE_BIN, SMALLEST_BIN, NEGATIVE_ONE_BIN_OFFSET, MIN_BIN_RANGE, MAX_BIN_RANGE.
    lia. }
  split; [| split; [exact getBinNumber_zero |]].
  - intros x Hx.
    destruct (Rtotal_order x 0) as [Hneg | [-> | Hpos]]; [| done |].
    + assert (Hp : (0 < - x)%R) by lra.
      specialize (Hsep (- x)%R x Hp Hneg). lia.
    + assert (Hn : (- x < 0)%R) by lra.
      specialize (Hsep x (- x)%R Hpos Hn). lia.
  - intros x Hx. rewrite getBinNumber_zero.
    destruct (Rtotal_order x 0) as [Hneg | [-> | Hpos]]; [| done |].
    + assert (Hp : (0 < 1)%R) by lra.
      specialize (Hsep 1%R x Hp Hneg). lia.
    + assert (Hn : (-1 < 0)%R) by lra.
      specialize (Hsep x (-1)%R Hpos Hn). lia.
Qed.

Lemma getBinNumber_monotone_sign_aware_witness :
  (0 < 1)%R ∧ (1 < 2)%R ∧ (1 ≠ 0)%R ∧
  getBinNumber 1 <= getBinNumber 2 ∧
  getBinNumber (- 1) ≠ getBinNumber 1 ∧
  getBinNumber 1 ≠ getBinNumber 0.
Proof.
  assert (H01 : (0 < 1)%R) by lra.
  assert (H12 : (1 < 2)%R) by lra.
  assert (H10 : (1 ≠ 0)%R) by lra.
  destruct getBinNumber_monotone_sign_aware as (Hmono & Hsign & _ & Hzero).
  exact (conj H01 (conj H12 (conj H10
           (conj (Hmono 1%R 2%R H01 H12) (conj (Hsign 1%R H10) (Hzero 1%R H10)))))).
Defined.

Lemma Int_part_0 : Int_part 0 = 0.
Proof. symmetry. apply Int_part_spec. simpl. lra. Qed.

Lemma getBinNumber_one : getBinNumber 1 = 0.
Proof.
  rewrite getBinNumber_pos by lra. rewrite ln_1.
  replace (0 / BIN_SIZE)%R with 0%R by (unfold Rdiv; ring).
  by rewrite Int_part_0.
Qed.

(** The bin of the floor [MIN_VALUE_FOR_HIST]: 1.1^96 < 10^4 <= 1.1^97. *)
Lemma getBinNumber_floor : getBinNumber MIN_VALUE_FOR_HIST = -97.
Proof.
  unfold MIN_VALUE_FOR_HIST. rewrite getBinNumber_pos by lra.
  replace (Int_part (ln (1 / 10000) / BIN_SIZE)) with (-97); [done |].
  apply Int_part_spec.
  pose proof BIN_SIZE_pos as Hw. unfold BIN_SIZE, EPSILON in *.
  assert (H1 : ln (1 / 10000) = (- ln 10000)%R).
  { rewrite <- ln_Rinv by lra. f_equal. lra. }
  assert (H96 : (INR 96 * ln (1 + 1 / 10) < ln 10000)%R).
  { rewrite <- ln_pow by lra. apply ln_increasing; [apply pow_lt; lra | lra]. }
  assert (H97 : (ln 10000 <= INR 97 * ln (1 + 1 / 10))%R).
  { rewrite <- ln_pow by lra. left. apply ln_increasing; lra. }
  replace (INR 96) with 96%R in H96 by (simpl; lra).
  replace (INR 97) with 97%R in H97 by (simpl; lra).
  rewrite H1. split.
  - apply (Rmult_lt_reg_r (ln (1 + 1 / 10))); [done |].
    unfold Rdiv. rewrite Rmult_minus_distr_r, Rmult_assoc, Rinv_l by lra. lra.
  - apply (Rmult_le_reg_r (ln (1 + 1 / 10))); [done |].
    unfold Rdiv. rewrite Rmult_assoc, Rinv_l by lra. lra.
Qed.

Section BucketFacts.
Context {Metric : Type} (toPrecision : R → Z → string).

(** A zero step never carries [bin] past [maxBucketNum]. *)
Lemma bucketLoop_stuck (metric : Metric) rangePeriod maxBucketNum incBucket fuel :
  incBucket == 0 →
  ∀ bin bottom defs,
    (bin <= inject_Z maxBucketNum)%Q →
    bucketLoop toPrecision fuel metric rangePeriod maxBucketNum incBucket bin bottom defs
    = None.
Proof.
  intros Hinc. induction fuel as [| fuel IH]; intros bin bottom defs Hle; simpl.
  - apply Qle_bool_iff in Hle. by rewrite Hle.
  - pose proof Hle as Hle'. apply Qle_bool_iff in Hle'. rewrite Hle'.
    apply IH. rewrite Hinc. lra.
Qed.

Lemma same_bin_never_terminates (metric : Metric) min max rangePeriod bucketCount fuel :
  ¬ (min < MIN_VALUE_FOR_HIST)%R →
  getBinNumber min = getBinNumber max →
  getHistogramMetricDefinitions toPrecision fuel metric min max rangePeriod bucketCount
  = None.
Proof.
  intros Hfloor Hbin. unfold getHistogramMetricDefinitions.
  destruct (Rlt_dec min MIN_VALUE_FOR_HIST); [done |].
  apply bucketLoop_stuck.
  - rewrite Hbin, Z.sub_diag. unfold Qdiv. apply Qmult_0_l.
  - rewrite Hbin. apply Qle_refl.
Qed.

Lemma round_inject_Z (z : Z) : round (inject_Z z) = z.
Proof.
  unfold round, Qfloor, Qplus, inject_Z. simpl.
  Z.div_mod_to_equations. lia.
Qed.

(** With one bucket asked for and the bins of the range apart, the loop
    runs twice: once at the minimum's bin and once at the maximum's. *)
Lemma one_step_two_buckets (metric : Metric) rangePeriod minBucketNum maxBucketNum
    bottom fuel :
  minBucketNum < maxBucketNum →
  bucketLoop toPrecision (S (S fuel)) metric rangePeriod maxBucketNum
    (inject_Z (maxBucketNum - minBucketNum) / inject_Z 1)
    (inject_Z minBucketNum) bottom []
  = Some [ (bucketFor toPrecision metric rangePeriod (inject_Z minBucketNum) bottom).1;
           (bucketFor toPrecision metric rangePeriod (inject_Z maxBucketNum)
              (getBinTop minBucketNum)).1 ].
Proof.
  intros Hlt.
  set (inc := (inject_Z (maxBucketNum - minBucketNum) / inject_Z 1)%Q).
  assert (Hinc : inc == inject_Z (maxBucketNum - minBucketNum)).
  { unfold inc. field. }
  assert (Hbin1 : (inject_Z minBucketNum + inc)%Q == inject_Z maxBucketNum).
  { rewrite Hinc, <- inject_Z_plus. f_equiv. lia. }
  assert (H0 : Qle_bool (inject_Z minBucketNum) (inject_Z maxBucketNum) = true).
  { apply Qle_bool_iff. rewrite <- Zle_Qle. lia. }
  assert (H1 : Qle_bool (inject_Z minBucketNum + inc) (inject_Z maxBucketNum) = true).
  { apply Qle_bool_iff. rewrite Hbin1. apply Qle_refl. }
  assert (H2 : Qle_bool (inject_Z minBucketNum + inc + inc) (inject_Z maxBucketNum) = false).
  { apply not_true_iff_false. rewrite Qle_bool_iff, Hbin1, Hinc, <- inject_Z_plus,
      <- Zle_Qle. lia. }
  cbn [bucketLoop]. rewrite H0.
  unfold bucketFor at 1. cbn [fst snd]. rewrite H1.
  unfold bucketFor at 1. cbn [fst snd].
  assert (Hr : round (inject_Z minBucketNum + inc) = maxBucketNum)
    by (unfold round; rewrite Hbin1; apply round_inject_Z).
  destruct fuel; cbn [bucketLoop]; rewrite H2; simpl.
  all: by rewrite Hr, !round_inject_Z.
Qed.

Lemma inject_Z_sub (a b : Z) : inject_Z (a - b) == inject_Z a - inject_Z b.
Proof. unfold Qminus. by rewrite <- inject_Z_opp, <- inject_Z_plus. Qed.

(** When the two bins differ, the loop ends after [bucketCount + 1] rounds
    (in exact arithmetic), one more bucket than asked for. *)
Lemma bucketLoop_distinct_bins (metric : Metric) rangePeriod minBucketNum maxBucketNum
    bucketCount :
  minBucketNum < maxBucketNum → 1 <= bucketCount →
  let incBucket := (inject_Z (maxBucketNum - minBucketNum) / inject_Z bucketCount)%Q in
  ∀ (rounds : nat) (bin : Q) bottom defs,
    (Z.of_nat rounds <= bucketCount + 1) →
    bin == (inject_Z minBucketNum
            + inject_Z (bucketCount + 1 - Z.of_nat rounds) * incBucket)%Q →
    ∃ defs',
      bucketLoop toPrecision rounds metric rangePeriod maxBucketNum incBucket bin bottom defs
        = Some defs' ∧
      length defs' = (length defs + rounds)%nat.
Proof.
  intros Hlt Hcount incBucket.
  assert (Hbc : (1 <= inject_Z bucketCount)%Q).
  { change 1%Q with (inject_Z 1). rewrite <- Zle_Qle. lia. }
  assert (Hspan : (incBucket * inject_Z bucketCount
                   == inject_Z maxBucketNum - inject_Z minBucketNum)%Q).
  { unfold incBucket. rewrite inject_Z_sub. field. lra. }
  assert (Hgap : (inject_Z minBucketNum < inject_Z maxBucketNum)%Q)
    by (by rewrite <- Zlt_Qlt).
  assert (Hinc : (0 < incBucket)%Q).
  { destruct (Qlt_le_dec 0 incBucket) as [? | Hle]; [done |]. exfalso. nra. }
  induction rounds as [| rounds IH]; intros bin bottom defs Hrounds Hbin.
  - exists defs. split; [| simpl; lia]. simpl.
    replace (Qle_bool bin (inject_Z maxBucketNum)) with false; [done |].
    symmetry. apply not_true_iff_false. rewrite Qle_bool_iff, Hbin.
    replace (bucketCount + 1 - Z.of_nat 0) with (bucketCount + 1) by lia.
    rewrite inject_Z_plus. change (inject_Z 1) with 1%Q. nra.
  - set (k := bucketCount + 1 - Z.of_nat (S rounds)) in *.
    assert (Hk : (inject_Z k <= inject_Z bucketCount)%Q) by (rewrite <- Zle_Qle; lia).
    assert (Hk0 : (0 <= inject_Z k)%Q).
    { change 0%Q with (inject_Z 0). rewrite <- Zle_Qle. lia. }
    cbn [bucketLoop].
    replace (Qle_bool bin (inject_Z maxBucketNum)) with true.
    2: { symmetry. rewrite Qle_bool_iff, Hbin. nra. }
    destruct (bucketFor toPrecision metric rangePeriod bin bottom) as [definition top].
    destruct (IH (bin + incBucket)%Q top (defs ++ [definition])) as (defs' & Hrun & Hlen).
    + lia.
    + rewrite Hbin.
      replace (bucketCount + 1 - Z.of_nat rounds) with (k + 1) by lia.
      rewrite inject_Z_plus. change (inject_Z 1) with 1%Q. ring.
    + exists defs'. split; [done |]. rewrite Hlen, length_app. simpl. lia.
Qed.

Lemma distinct_bins_terminate (metric : Metric) min max rangePeriod bucketCount :
  ¬ (min < MIN_VALUE_FOR_HIST)%R →
  getBinNumber min < getBinNumber max → 1 <= bucketCount →
  ∃ defs,
    getHistogramMetricDefinitions toPrecision (Z.to_nat (bucketCount + 1)) metric min max
      rangePeriod bucketCount = Some defs ∧
    length defs = Z.to_nat (bucketCount + 1).
Proof.
  intros Hfloor Hbins Hcount. unfold getHistogramMetricDefinitions.
  destruct (Rlt_dec min MIN_VALUE_FOR_HIST); [done |].
  destruct (bucketLoop_distinct_bins metric rangePeriod (getBinNumber min) (getBinNumber max)
              bucketCount Hbins Hcount (Z.to_nat (bucketCount + 1))
              (inject_Z (getBinNumber min)) min []) as (defs & Hrun & Hlen).
  - lia.
  - rewrite Z2Nat.id by lia. rewrite Z.sub_diag. change (inject_Z 0) with 0%Q. ring.
  - exists defs. split; [done |]. by rewrite Hlen.
Qed.
(** C5: a value range whose minimum and maximum fall into the same bin
    makes the bucket loop's step zero, and the loop never ends, whatever the
    fuel; so it is for the range from 1 to 1 and every bucket count. *)
Theorem constant_metric_never_terminates (metric : Metric) rangePeriod bucketCount fuel :
  getHistogramMetricDefinitions toPrecision fuel metric 1 1 rangePeriod bucketCount = None.
Proof.
  apply same_bin_never_terminates; [| done].
  unfold MIN_VALUE_FOR_HIST. lra.
Qed.

(** C6: with the minimum 0 below the floor, the maximum 1 and one bucket
    asked for, two buckets are built: the first from the minimum to the top
    of the floor's bin -97, the second from there to the top of bin 0; each
    label is that of its own midpoint. *)
Theorem one_bucket_request_builds_two (metric : Metric) rangePeriod fuel :
  getHistogramMetricDefinitions toPrecision (S (S fuel)) metric 0 1 rangePeriod 1
  = Some [ {| DefId := -97;
              DefLabel := getLabelForValue toPrecision ((getBinTop (-97) + 0) / 2) "undefined";
              DefMetric := metric;
              DefStat := percentileRange toPrecision 0 (getBinTop (-97));
              DefPeriod := rangePeriod |};
           {| DefId := 0;
              DefLabel :=
                getLabelForValue toPrecision ((getBinTop 0 + getBinTop (-97)) / 2) "undefined";
              DefMetric := metric;
              DefStat := percentileRange toPrecision (getBinTop (-97)) (getBinTop 0);
              DefPeriod := rangePeriod |} ].
Proof.
  unfold getHistogramMetricDefinitions.
  destruct (Rlt_dec 0 MIN_VALUE_FOR_HIST) as [_ | Hn];
    [| exfalso; apply Hn; unfold MIN_VALUE_FOR_HIST; lra].
  rewrite getBinNumber_floor, getBinNumber_one.
  rewrite one_step_two_buckets by lia.
  unfold bucketFor. cbn [fst]. by rewrite !round_inject_Z.
Qed.
End BucketFacts.

End HistogramFacts.

Module FilterFacts.
Import Filter.

(** C8: the empty filter keeps every series, zero-length ones included, so
    the number of series is unchanged; a non-empty filter never keeps a series
    that has no data points. *)
Theorem empty_filter_keeps_all_nonempty_drops_empty :
  (∀ parseFloat, parseFilter parseFloat "" = inr None) ∧
  (∀ metrics, getMetricDataEventHandler None metrics = metrics) ∧
  (∀ metrics, length (getMetricDataEventHandler None metrics) = length metrics) ∧
  (∀ f metrics metric,
     In metric (getMetricDataEventHandler (Some f) metrics) → Values metric ≠ []).
Proof.
  assert (Hall : ∀ metrics, getMetricDataEventHandler None metrics = metrics).
  { intros metrics. unfold getMetricDataEventHandler.
    induction metrics as [| m metrics IH]; simpl; [done | f_equal; exact IH]. }
  split; [done |]. split; [done |]. split.
  - intros metrics. by rewrite Hall.
  - intros f metrics metric Hin Hempty.
    apply filter_In in Hin as [_ Hmatch].
    by rewrite Hempty in Hmatch.
Qed.

Lemma empty_filter_keeps_all_nonempty_drops_empty_witness :
  In Examples.sampleSeries
    (getMetricDataEventHandler (Some {| stat := MAX; condition := GT; value := 0%Q |})
       [Examples.sampleSeries]) ∧
  Values Examples.sampleSeries ≠ [].
Proof.
  assert (Hin : In Examples.sampleSeries
                  (getMetricDataEventHandler
                     (Some {| stat := MAX; condition := GT; value := 0%Q |})
                     [Examples.sampleSeries]))
    by (left; reflexivity).
  split; [exact Hin |].
  destruct empty_filter_keeps_all_nonempty_drops_empty as (_ & _ & _ & Hdrop).
  exact (Hdrop _ _ _ Hin).
Defined.

End FilterFacts.

Module NumberFilterFacts.
Import Filter NumberFilter.

Section Numbers.
Context {num : Type}.
Variable add : num → num → num.
Variable div : num → num → num.
Variable ofNat : nat → num.
Variable lt : num → num → bool.
Variable le : num → num → bool.
Variable eq : num → num → bool.






End Numbers.



(** Over exact rationals the pass with its operations as parameters is the
    pass of [Filter]. *)
Lemma exact_rationals_instance (values : list Q) (f : Filter.Predicate) :
  Filter.statMatchesFilter values (Some f)
  = statMatchesFilter Qplus Qdiv (λ n, inject_Z (Z.of_nat n))
      Filter.Qlt_bool Qle_bool Qeq_bool values
      (Some {| stat := Filter.stat f; condition := Filter.condition f;
               value := Filter.value f |}).
Proof.
  destruct values as [| first rest]; [done |].
  unfold Filter.statMatchesFilter, statMatchesFilter, statMap.
  cbn [stat condition value].
  change (Filter.linearPass first rest)
    with (linearPass Qplus Filter.Qlt_bool first rest).
  destruct (linearPass Qplus Filter.Qlt_bool first rest) as [[mn mx] sm].
  by destruct (Filter.stat f), (Filter.condition f).
Qed.

(** In doubles the sum of 0.1, 0.2 and 0.3 is not the double nearest to 0.6,
    and the average of three times 0.7 lies below 0.7: the statistics of
    the code are those of its own additions, not of exact arithmetic. *)
Lemma sums_round_in_doubles :
  statMatchesFilter PrimFloat.add PrimFloat.div Doubles.ofNat
    PrimFloat.ltb PrimFloat.leb PrimFloat.eqb Doubles.tenths
    (Some {| stat := SUM; condition := EQ; value := Doubles.sixTenths |}) = false ∧
  statMatchesFilter PrimFloat.add PrimFloat.div Doubles.ofNat
    PrimFloat.ltb PrimFloat.leb PrimFloat.eqb
    [Doubles.sevenTenths; Doubles.sevenTenths; Doubles.sevenTenths]
    (Some {| stat := AVG; condition := LT; value := Doubles.sevenTenths |}) = true.
Proof. split; reflexivity. Qed.


End NumberFilterFacts.

Module MultiRegionFacts.
Import MultiRegion Examples.






End MultiRegionFacts.

Module MovingAverageFacts.
Import MovingAverage.

Lemma lt_div_iff (a b P : Z) : 0 < P → (a < b * P ↔ a / P < b).
Proof. intros HP. Z.div_mod_to_equations. nia. Qed.

Lemma windowTimes_formula (rs S P : Z) (n : nat) :
  0 < P →
  let d := Z.max 0 (Z.of_nat n - Z.max 0 (keptSlots rs S P)) in
  windowTimes rs S P n = (λ j, rs + j * P) <$> seqZ d (Z.of_nat n - d).
Proof.
  intros HP. unfold keptSlots. induction n as [| n IH].
  { cbv zeta. by rewrite seqZ_nil by lia. }
  cbn [windowTimes]. rewrite IH. cbv zeta.
  set (k0 := (S - rs) / P).
  set (d := Z.max 0 (Z.of_nat n - Z.max 0 (k0 + 1))).
  assert (Hd : 0 <= d <= Z.of_nat n) by lia.
  assert (Hpush : ((λ j, rs + j * P) <$> seqZ d (Z.of_nat n - d)) ++ [rs + Z.of_nat n * P]
                  = (λ j, rs + j * P) <$> seqZ d (Z.of_nat n - d + 1)).
  { rewrite seqZ_app by lia. rewrite fmap_app. f_equal.
    replace (d + (Z.of_nat n - d)) with (Z.of_nat n) by lia. done. }
  rewrite Hpush.
  destruct (Z.ltb_spec S (rs + Z.of_nat n * P)) as [Hlt | Hge].
  - assert (k0 < Z.of_nat n) as Hk by (unfold k0; apply lt_div_iff; lia).
    rewrite seqZ_cons by lia. cbn [fmap list_fmap tail].
    replace (Z.max 0 (Z.of_nat (Datatypes.S n) - Z.max 0 (k0 + 1))) with (Z.succ d) by lia.
    f_equal. f_equal; lia.
  - assert (¬ k0 < Z.of_nat n) as Hk by (unfold k0; rewrite <- lt_div_iff; lia).
    replace (Z.max 0 (Z.of_nat (Datatypes.S n) - Z.max 0 (k0 + 1))) with 0 by lia.
    replace d with 0 by lia. f_equal. f_equal. lia.
Qed.

(** From [StartTime] on the window holds the [keptSlots] slots that end at
    the visited timestamp. *)
Lemma windowTimes_emit (rs S P : Z) (n : nat) :
  0 < P → S <= rs + Z.of_nat n * P →
  windowTimes rs S P (Datatypes.S n)
  = windowSlots (rs + Z.of_nat n * P) P (keptSlots rs S P).
Proof.
  intros HP Hge. rewrite windowTimes_formula by done. cbv zeta.
  unfold windowSlots, keptSlots.
  set (k0 := (S - rs) / P).
  assert (k0 <= Z.of_nat n) as Hk.
  { assert (k0 < Z.of_nat n + 1); [| lia]. unfold k0. apply lt_div_iff; lia. }
  destruct (Z.le_gt_cases (k0 + 1) 0) as [Hneg | Hpos].
  - rewrite (seqZ_nil 0) by lia. rewrite seqZ_nil by lia. done.
  - replace (Z.max 0 (Z.of_nat (Datatypes.S n) - Z.max 0 (k0 + 1)))
      with (Z.of_nat n - k0 + 0) by lia.
    replace (Z.of_nat (Datatypes.S n) - (Z.of_nat n - k0 + 0)) with (k0 + 1) by lia.
    rewrite <- fmap_add_seqZ, <- list_fmap_compose.
    apply list_fmap_ext. intros _ j _. simpl. lia.
Qed.

Lemma presentSamples_snoc (m : gmap Z Q) (times : list Z) (t : Z) :
  presentSamples m (times ++ [t])
  = presentSamples m times ++ match m !! t with Some v => [v] | None => [] end.
Proof.
  unfold presentSamples. rewrite omap_app. simpl. by destruct (m !! t).
Qed.

Lemma Qsum_app (l k : list Q) : Qsum (l ++ k) == (Qsum l + Qsum k)%Q.
Proof.
  induction l as [| x l IH]; simpl; [ring |]. rewrite IH. ring.
Qed.

Lemma movingAverage_spec_snoc (m : gmap Z Q) (S P slots : Z) (visited : list Z) (t : Z) :
  movingAverage_spec m S P slots (visited ++ [t])
  = movingAverage_spec m S P slots visited
    ++ match (if S <=? t then pair t <$> windowAverage m t P slots else None) with
       | Some point => [point]
       | None => []
       end.
Proof.
  unfold movingAverage_spec. by rewrite omap_app.
Qed.

(** One step of the walk keeps the invariant: the new timestamp enters the
    window, the oldest leaves once the walk is past [StartTime], and a point
    is emitted exactly when the reference has one. *)
Lemma walkStep_inv (m : gmap Z Q) (S P slots : Z) (times visited : list Z)
    (t : Z) (st : WalkState) :
  let times' := if S <? t then tail (times ++ [t]) else times ++ [t] in
  (S <= t → times' = windowSlots t P slots) →
  WalkInv m S P slots times visited st →
  WalkInv m S P slots times' (visited ++ [t]) (walkStep m S t st).
Proof.
  intros times' Hslots (Hwin & Hcount & Htotal & Hts & Hvs).
  (* after the push *)
  set (pushed := times ++ [t]).
  assert (Hwin1 : windowOfValues st ++ [m !! t] = (λ t, m !! t) <$> pushed).
  { unfold pushed. by rewrite fmap_app, Hwin. }
  set (count1 := match m !! t with
                 | Some _ => currentSampleCount st + 1
                 | None => currentSampleCount st
                 end).
  set (total1 := match m !! t with
                 | Some v => (sampleTotal st + v)%Q
                 | None => sampleTotal st
                 end).
  assert (Hcount1 : count1 = Z.of_nat (length (presentSamples m pushed))).
  { unfold count1, pushed. rewrite presentSamples_snoc, length_app, Hcount.
    destruct (m !! t); simpl; lia. }
  assert (Htotal1 : total1 == Qsum (presentSamples m pushed)).
  { unfold total1, pushed. rewrite presentSamples_snoc, Qsum_app.
    destruct (m !! t); rewrite Htotal; simpl; ring. }
  (* after the shift *)
  set (shifted := if S <? t
                  then match (λ t, m !! t) <$> pushed with
                       | Some first :: rest => (rest, count1 - 1, (total1 - first)%Q)
                       | None :: rest => (rest, count1, total1)
                       | [] => ((λ t, m !! t) <$> pushed, count1, total1)
                       end
                  else ((λ t, m !! t) <$> pushed, count1, total1)).
  assert (Hshift : shifted.1.1 = (λ t, m !! t) <$> times' ∧
                   shifted.1.2 = Z.of_nat (length (presentSamples m times')) ∧
                   shifted.2 == Qsum (presentSamples m times')).
  { unfold shifted, times'. fold pushed.
    destruct (S <? t); [| done].
    destruct pushed as [| first rest]; [done |].
    cbn [fmap list_fmap tail]. unfold presentSamples in *. cbn [omap list_omap] in *.
    destruct (m !! first) as [v |]; cbn [fst snd length] in *.
    - split_and!; [done | lia |]. rewrite Htotal1. simpl. ring.
    - done. }
  destruct Hshift as (Hwin2 & Hcount2 & Htotal2).
  assert (Hstep : walkStep m S t st =
    let emit := (S <=? t) && (0 <? shifted.1.2) in
    {| windowOfValues := shifted.1.1;
       currentSampleCount := shifted.1.2;
       sampleTotal := shifted.2;
       averagedTimestamps :=
         if emit then averagedTimestamps st ++ [t] else averagedTimestamps st;
       averagedValues :=
         if emit then averagedValues st ++ [(shifted.2 / inject_Z shifted.1.2)%Q]
         else averagedValues st |}).
  { unfold walkStep, shifted, count1, total1. rewrite <- Hwin1.
    destruct (m !! t); destruct (S <? t); try done;
      destruct (windowOfValues st ++ _) as [| [first |] rest]; done. }
  rewrite Hstep. clear Hstep. cbv zeta.
  unfold WalkInv. cbn [windowOfValues currentSampleCount sampleTotal
                       averagedTimestamps averagedValues].
  rewrite movingAverage_spec_snoc.
  split_and!; [done.. | |].
  - (* timestamps *)
    rewrite fmap_app, <- Hts.
    destruct (Z.leb_spec S t) as [Hle | Hgt]; [| by rewrite app_nil_r].
    unfold windowAverage. rewrite <- (Hslots Hle). rewrite Hcount2.
    destruct (presentSamples m times'); simpl; [by rewrite app_nil_r | done].
  - (* values *)
    rewrite fmap_app.
    destruct (Z.leb_spec S t) as [Hle | Hgt]; [| by rewrite app_nil_r].
    unfold windowAverage. rewrite <- (Hslots Hle). rewrite Hcount2.
    destruct (presentSamples m times') as [| v samples] eqn:Hsamples;
      [by rewrite app_nil_r |].
    cbn [andb Z.ltb Z.of_nat length Z.compare fmap option_fmap option_map list_fmap snd].
    apply Forall2_app; [done |]. constructor; [| constructor].
    by rewrite Htotal2.
Qed.

Lemma walk_inv (m : gmap Z Q) (rs S P : Z) (st0 : WalkState) (n : nat) :
  0 < P →
  WalkInv m S P (keptSlots rs S P) [] [] st0 →
  WalkInv m S P (keptSlots rs S P) (windowTimes rs S P n) (gridFrom n rs P)
    (fold_left (λ st time, walkStep m S time st) (gridFrom n rs P) st0).
Proof.
  intros HP Hinit. induction n as [| n IH]; [done |].
  rewrite gridFrom_snoc, fold_left_app. cbn [fold_left].
  apply (walkStep_inv m S P (keptSlots rs S P) (windowTimes rs S P n)); [| done].
  intros Hle. by rewrite <- windowTimes_emit.
Qed.

(** The walk anchored at [revisedStartTime] returns the reference series for
    windows of [keptSlots] slots. *)
Lemma metricDataToMovingAverage_keptSlots (metricData : MetricData) (rs S E P : Z) :
  0 < P →
  ∃ out,
    metricDataToMovingAverage metricData rs S E P = Some out ∧
    Label out = Label metricData ∧
    let points :=
      movingAverage_spec (buildTimestampMap metricData) S P (keptSlots rs S P)
        (grid rs E P) in
    Timestamps out = points.*1 ∧ Forall2 Qeq (Values out) points.*2.
Proof.
  intros HP. unfold metricDataToMovingAverage. cbv zeta.
  rewrite forTime_grid by done. cbn [mbind option_bind].
  eexists. split; [done |]. cbn [Label Timestamps Values].
  split; [done |].
  set (st0 := {| windowOfValues := []; currentSampleCount := 0; sampleTotal := 0%Q;
                 averagedTimestamps := []; averagedValues := [] |}).
  assert (Hinit : WalkInv (buildTimestampMap metricData) S P (keptSlots rs S P) [] [] st0).
  { unfold WalkInv. simpl. split_and!; [done | done | reflexivity | done | constructor]. }
  destruct (walk_inv (buildTimestampMap metricData) rs S P st0 (iterations rs E P) HP Hinit)
    as (_ & _ & _ & Hts & Hvs).
  done.
Qed.

(** C1: the emitted value is not always the average over the trailing
    [N]-slot window.  With three datapoints asked for, samples 3, 5 and 7 at
    940, 1000 and 1060, and a timer series whose earliest timestamp is 940,
    the walk starts at 940 and drops a slot as soon as it is past
    [StartTime]: the point at 1060 is (5 + 7) / 2, while the three slots that
    end at 1060 hold the samples 3, 5 and 7, whose average is (3 + 5 + 7) / 3.
    All sums and quotients here are whole numbers, exact in doubles. *)
Lemma late_timer_shrinks_window :
  getMetricDataEventHandler 1000 1120 60 3 Examples.metricSeries Examples.lateTimer
    = Some (inr [ {| Id := None; Label := "CPUUtilization";
                     Timestamps := [1000; 1060]; Values := [8 # 2; 12 # 2];
                     Status := Some "Complete"%string; StatusCode := None |} ]) ∧
  windowAverage (buildTimestampMap Examples.metricSeries) 1060 60 3 = Some (15 # 3) ∧
  ¬ (12 # 2 == 15 # 3).
Proof.
  split; [reflexivity |]. split; [reflexivity |]. intros H. discriminate H.
Qed.

End MovingAverageFacts.

(** ** The timestamp map *)

Lemma fillTimestampMap_lookup (timestamps : list Z) :
  ∀ (index : nat) (values : list Q) (m : gmap Z Q) (t : Z) (v : Q),
    NoDup timestamps →
    (length timestamps + index <= length values)%nat →
    fillTimestampMap index timestamps values m !! t = Some v ↔
    In (t, v) (zip timestamps (drop index values)) ∨ (¬ In t timestamps ∧ m !! t = Some v).
Proof.
  induction timestamps as [| ts rest IH]; intros index values m t v Hnodup Hlen.
  - simpl. split; [intros ?; right; split; [tauto | done] | intros [[] | [_ ?]]; done].
  - apply NoDup_cons in Hnodup as [Hts Hrest]. simpl in Hlen.
    destruct (values !! index) as [x |] eqn:Hx;
      [| apply lookup_ge_None in Hx; lia].
    cbn [fillTimestampMap]. rewrite Hx, IH by (done || lia).
    rewrite (drop_S _ _ _ Hx). cbn [zip zip_with In].
    destruct (decide (t = ts)) as [-> | Hne].
    + rewrite lookup_insert_eq. split.
      * intros [Hin | [_ [= ->]]]; [| by left; left].
        exfalso. apply Hts.
        apply list_elem_of_In in Hin. by eapply elem_of_zip_l.
      * intros [[[= ->] | Hin] | [Hnot _]].
        -- right. split; [| done]. by rewrite <- list_elem_of_In.
        -- by left.
        -- exfalso. apply Hnot. by left.
    + rewrite lookup_insert_ne by done. split.
      * intros [Hin | [Hnot Hm]]; [by left; right |].
        right. split; [| done]. intros [? | ?]; done.
      * intros [[[= ? _] | Hin] | [Hnot Hm]]; [done | by left |].
        right. split; [| done]. intros ?. apply Hnot. by right.
Qed.

(** On a series with distinct timestamps and a value for each, the map
    holds exactly the samples of the series. *)
Lemma buildTimestampMap_lookup (metricData : MetricData) (t : Z) (v : Q) :
  NoDup (Timestamps metricData) →
  length (Timestamps metricData) = length (Values metricData) →
  buildTimestampMap metricData !! t = Some v ↔
  In (t, v) (zip (Timestamps metricData) (Values metricData)).
Proof.
  intros Hnodup Hlen. unfold buildTimestampMap.
  rewrite fillTimestampMap_lookup by (done || lia).
  rewrite drop_0, lookup_empty. split; [intros [? | [_ ?]]; done | by left].
Qed.

(** ** Lists sorted by timestamp *)

Lemma sorted_earlier_NoDup (l : list (Z * Q)) : StronglySorted earlier l → NoDup l.
Proof.
  induction 1 as [| p l Hl IH Hp]; constructor; [| done].
  intros Hin. rewrite Forall_forall in Hp. specialize (Hp p Hin).
  unfold earlier in Hp. lia.
Qed.

Lemma sorted_earlier_unique (l k : list (Z * Q)) :
  StronglySorted earlier l → StronglySorted earlier k →
  (∀ p, In p l ↔ In p k) → l = k.
Proof.
  intros Hl Hk Hsame.
  apply (StronglySorted_unique_strong earlier); [| done | done |].
  - unfold earlier. intros; lia.
  - apply NoDup_Permutation; [by apply sorted_earlier_NoDup.. |].
    intros p. rewrite !list_elem_of_In. apply Hsame.
Qed.

Lemma sorted_zip (timestamps : list Z) (values : list Q) :
  StronglySorted Z.lt timestamps → StronglySorted earlier (zip timestamps values).
Proof.
  intros Hsorted. revert values.
  induction Hsorted as [| ts rest Hrest IH Hts]; intros [| v values]; simpl;
    try constructor; [apply IH |].
  apply Forall_forall. intros [t x] Hin. unfold earlier. simpl.
  rewrite Forall_forall in Hts. apply Hts. by eapply elem_of_zip_l.
Qed.

Lemma sorted_filter (f : Z * Q → bool) (l : list (Z * Q)) :
  StronglySorted earlier l → StronglySorted earlier (List.filter f l).
Proof.
  induction 1 as [| p l Hl IH Hp]; simpl; [constructor |].
  destruct (f p); [| done]. constructor; [done |].
  apply Forall_forall. intros q Hq.
  apply list_elem_of_In, filter_In in Hq as [Hq _].
  rewrite Forall_forall in Hp. by apply Hp, list_elem_of_In.
Qed.

Lemma sorted_NoDup_Z (l : list Z) : StronglySorted Z.lt l → NoDup l.
Proof.
  induction 1 as [| p l Hl IH Hp]; constructor; [| done].
  intros Hin. rewrite Forall_forall in Hp. specialize (Hp p Hin). lia.
Qed.

Module TimeShiftFacts.
Import TimeShift.

Lemma shiftStep_fold (m : gmap Z Q) (timeOffset : Z) (times : list Z) :
  ∀ acc : list Z * list Q,
    fold_left (λ metric time, shiftStep m timeOffset time metric) times acc
    = (acc.1 ++ (shiftedPoints m timeOffset times).*1,
       acc.2 ++ (shiftedPoints m timeOffset times).*2).
Proof.
  induction times as [| t times IH]; intros [tss vs]; simpl.
  - by rewrite !app_nil_r.
  - rewrite IH. unfold shiftStep, shiftedPoints. cbn [omap list_omap].
    destruct (m !! (t - timeOffset)) as [v |]; simpl; [| done].
    by rewrite <- !app_assoc.
Qed.

(** With a positive period each shifted series is built, and holds the
    shifted points over the grid. *)
Lemma shiftedMetric_grid (m : gmap Z Q) (S E P shiftInterval i : Z) :
  0 < P →
  ∃ metric,
    shiftedMetric m S E P shiftInterval i = Some metric ∧
    Label metric = (if i =? 0 then "current"%string
                    else ("- " ++ convertSecondsToHumanReadable (i * shiftInterval))%string) ∧
    Timestamps metric = (shiftedPoints m (i * shiftInterval) (grid S E P)).*1 ∧
    Values metric = (shiftedPoints m (i * shiftInterval) (grid S E P)).*2.
Proof.
  intros HP. unfold shiftedMetric. cbv zeta.
  rewrite forTime_grid by done. cbn [mbind option_bind].
  rewrite shiftStep_fold. eexists. split; [done |]. done.
Qed.

Lemma mapM_shiftedMetric (m : gmap Z Q) (S E P shiftInterval : Z) (shifts : list Z) :
  0 < P →
  ∃ metrics,
    mapM (shiftedMetric m S E P shiftInterval) shifts = Some metrics ∧
    Forall2 (λ i metric, shiftedMetric m S E P shiftInterval i = Some metric) shifts metrics.
Proof.
  intros HP. induction shifts as [| i shifts (metrics & Hmap & Hall)].
  - exists []. split; [done | constructor].
  - destruct (shiftedMetric_grid m S E P shiftInterval i HP) as (metric & Hmetric & _).
    exists (metric :: metrics). split.
    + cbn [mapM]. rewrite Hmetric. cbn [mbind option_bind]. rewrite Hmap. done.
    + by constructor.
Qed.

Lemma shiftedPoints_timestamps (m : gmap Z Q) (timeOffset : Z) (times : list Z) (t : Z) :
  In t (shiftedPoints m timeOffset times).*1 → In t times.
Proof.
  intros Hin. apply list_elem_of_In, list_elem_of_fmap in Hin as ([t' v] & -> & Hin).
  apply list_elem_of_omap in Hin as (t'' & Hin & Heq).
  destruct (m !! (t'' - timeOffset)); simplify_eq/=. by apply list_elem_of_In.
Qed.

Lemma shiftedPoints_sorted (m : gmap Z Q) (timeOffset : Z) (times : list Z) :
  StronglySorted Z.lt times → StronglySorted earlier (shiftedPoints m timeOffset times).
Proof.
  induction 1 as [| t times Hsorted IH Ht]; [constructor |].
  unfold shiftedPoints. cbn [omap list_omap].
  destruct (m !! (t - timeOffset)) as [v |]; simpl; [| done].
  constructor; [done |].
  apply Forall_forall. intros [t' v'] Hin. unfold earlier. simpl.
  rewrite Forall_forall in Ht. apply Ht, list_elem_of_In.
  apply (shiftedPoints_timestamps m timeOffset).
  apply list_elem_of_In, list_elem_of_fmap. by exists (t', v').
Qed.

(** Unshifted, the points over the grid are the raw samples on the grid,
    whatever the order in which the backend lists them. *)
Lemma current_points_elements (raw : MetricData) (start EndTime Period : Z)
    (sample : Z * Q) :
  0 < Period →
  NoDup (Timestamps raw) →
  length (Timestamps raw) = length (Values raw) →
  In sample (shiftedPoints (buildTimestampMap raw) 0 (grid start EndTime Period)) ↔
  In sample
    (List.filter (onWalkedGrid start EndTime Period) (zip (Timestamps raw) (Values raw))).
Proof.
  intros HP Hnodup Hlen. destruct sample as [t v].
  rewrite filter_In. unfold onWalkedGrid. cbn [fst].
  rewrite !andb_true_iff, Z.leb_le, Z.ltb_lt, Z.eqb_eq.
  rewrite <- (buildTimestampMap_lookup raw) by done.
  rewrite <- (elem_of_grid start EndTime Period t HP).
  rewrite <- list_elem_of_In. unfold shiftedPoints. rewrite list_elem_of_omap.
  split.
  - intros (t' & Hin & Heq). rewrite Z.sub_0_r in Heq.
    destruct (buildTimestampMap raw !! t') as [v' |] eqn:Hv; simplify_eq/=.
    split; [done |]. by apply list_elem_of_In.
  - intros [Hv Hin]. exists t. split; [by apply list_elem_of_In |].
    by rewrite Z.sub_0_r, Hv.
Qed.

(** For a raw series in ascending order they are the same list. *)
Lemma current_points (raw : MetricData) (start EndTime Period : Z) :
  0 < Period →
  StronglySorted Z.lt (Timestamps raw) →
  length (Timestamps raw) = length (Values raw) →
  shiftedPoints (buildTimestampMap raw) 0 (grid start EndTime Period)
  = List.filter (onWalkedGrid start EndTime Period) (zip (Timestamps raw) (Values raw)).
Proof.
  intros HP Hsorted Hlen. apply sorted_earlier_unique.
  - apply shiftedPoints_sorted, gridFrom_sorted, HP.
  - by apply sorted_filter, sorted_zip.
  - intros sample. apply current_points_elements; [done | | done].
    by apply sorted_NoDup_Z.
Qed.

Lemma handler_series (StartTime EndTime Period : Z) (shiftIntervalString : string)
    (numberOfShifts shiftInterval shifts : Z) (raw : MetricData) :
  0 < Period →
  validateGetMetricDataRequest shiftIntervalString numberOfShifts
    = inr (shiftInterval, shifts) →
  ∃ series,
    getMetricDataEventHandler StartTime EndTime Period shiftIntervalString numberOfShifts raw
      = Some (inr series) ∧
    Forall2 (λ i metric,
               shiftedMetric (buildTimestampMap raw) (roundedStart StartTime Period)
                 EndTime Period shiftInterval i = Some metric)
      (seqZ 0 (shifts + 1)) series.
Proof.
  intros HP Hvalid. unfold getMetricDataEventHandler, shiftFullMetricData.
  rewrite Hvalid. cbv zeta.
  destruct (mapM_shiftedMetric (buildTimestampMap raw) (roundedStart StartTime Period)
              EndTime Period shiftInterval (seqZ 0 (shifts + 1)) HP)
    as (series & Hmap & Hall).
  exists series. by rewrite Hmap.
Qed.

Lemma validate_shifts (shiftIntervalString : string) (numberOfShifts shiftInterval shifts : Z) :
  validateGetMetricDataRequest shiftIntervalString numberOfShifts
    = inr (shiftInterval, shifts) →
  0 < shiftInterval ∧ shifts = numberOfShifts ∧ 1 <= numberOfShifts <= 10.
Proof.
  unfold validateGetMetricDataRequest.
  destruct (parseISO8601DurationString shiftIntervalString) as [? | interval]; [done |].
  destruct (Z.leb_spec interval 0); [done |].
  destruct (Z.ltb_spec numberOfShifts 1); [done |].
  destruct (Z.ltb_spec 10 numberOfShifts); [done |].
  simpl. intros [= <- <-]. lia.
Qed.

(** C2 (as amended): with a positive period and a raw series of ascending
    timestamps, each with its value, the series of shift index 0 is labelled
    [current] and holds exactly the raw samples on the walked grid, the
    timestamps [roundedStart + k * Period] inside [[roundedStart, EndTime)]
    with [roundedStart = StartTime - StartTime % Period], values unchanged. *)
Theorem current_series_is_raw_on_walked_grid (StartTime EndTime Period : Z)
    (shiftIntervalString : string) (numberOfShifts shiftInterval shifts : Z)
    (raw : MetricData) :
  0 < Period →
  validateGetMetricDataRequest shiftIntervalString numberOfShifts
    = inr (shiftInterval, shifts) →
  StronglySorted Z.lt (Timestamps raw) →
  length (Timestamps raw) = length (Values raw) →
  ∃ current shifted,
    getMetricDataEventHandler StartTime EndTime Period shiftIntervalString numberOfShifts raw
      = Some (inr (current :: shifted)) ∧
    Label current = "current"%string ∧
    let kept :=
      List.filter (onWalkedGrid (roundedStart StartTime Period) EndTime Period)
        (zip (Timestamps raw) (Values raw)) in
    Timestamps current = kept.*1 ∧ Values current = kept.*2.
Proof.
  intros HP Hvalid Hsorted Hlen.
  destruct (handler_series StartTime EndTime Period shiftIntervalString numberOfShifts
              shiftInterval shifts raw HP Hvalid) as (series & Hseries & Hall).
  apply validate_shifts in Hvalid as (_ & -> & Hshifts).
  rewrite seqZ_cons in Hall by lia.
  apply Forall2_cons_inv_l in Hall as (current & shifted & Hcurrent & _ & ->).
  exists current, shifted. split; [done |].
  destruct (shiftedMetric_grid (buildTimestampMap raw) (roundedStart StartTime Period)
              EndTime Period shiftInterval 0 HP) as (metric & Hmetric & Hlabel & Hts & Hvs).
  rewrite Hmetric in Hcurrent. injection Hcurrent as <-.
  split; [done |]. cbv zeta.
  rewrite Z.mul_0_l, current_points in Hts, Hvs by done. done.
Qed.

(** When [StartTime] and every raw timestamp are multiples of [Period], the
    samples on the walked grid are the raw samples in [[StartTime, EndTime)]. *)
Lemma aligned_walked_grid (StartTime EndTime Period : Z) (samples : list (Z * Q)) :
  0 < Period →
  Z.rem StartTime Period = 0 →
  (∀ sample, In sample samples → sample.1 mod Period = 0) →
  List.filter (onWalkedGrid (roundedStart StartTime Period) EndTime Period) samples
  = List.filter (inQueryWindow StartTime EndTime) samples.
Proof.
  intros HP Hrem Hmult. unfold roundedStart. rewrite Hrem, Z.sub_0_r.
  apply filter_ext_in. intros [t v] Hin. unfold onWalkedGrid, inQueryWindow. cbn [fst].
  specialize (Hmult _ Hin). cbn [fst] in Hmult.
  assert (StartTime mod Period = 0) as Hmod.
  { apply Z.rem_divide in Hrem; [| lia]. apply Z.mod_divide; [lia | done]. }
  assert ((t - StartTime) mod Period = 0) as ->.
  { rewrite Zminus_mod, Hmult, Hmod. done. }
  by rewrite andb_true_r.
Qed.

(** C7: the pattern accepts fractional seconds, but a fraction is dropped
    when the seconds are read: PT1.5S yields 1 where the specified interval is
    3/2, and PT0.5S, specified as half a second, yields 0 and is refused. *)
Theorem fractional_seconds_are_truncated :
  parseISO8601DurationString "PT1.5S" = inr 1 ∧
  (∃ q, shiftInterval_spec "PT1.5S" = Some q ∧ q == 3 # 2) ∧
  (∃ q, shiftInterval_spec "PT0.5S" = Some q ∧ (0 < q)%Q) ∧
  (∃ err, validateGetMetricDataRequest "PT0.5S" 1 = inl err
          ∧ cause err = Some "Validation"%string).
Proof.
  split; [reflexivity |]. split; [| split].
  - eexists. split; [reflexivity | reflexivity].
  - eexists. split; [reflexivity | reflexivity].
  - eexists. split; reflexivity.
Qed.

(** Without a fraction the parsed interval is the specified one. *)
Example whole_seconds_agree :
  parseISO8601DurationString "P1DT2H3M4S" = inr 93784 ∧
  ∃ q, shiftInterval_spec "P1DT2H3M4S" = Some q ∧ q == inject_Z 93784.
Proof. split; [reflexivity |]. eexists. split; reflexivity. Qed.

Lemma current_series_is_raw_on_walked_grid_witness :
  0 < 60 ∧
  validateGetMetricDataRequest "PT1M" 1 = inr (60, 1) ∧
  StronglySorted Z.lt (Timestamps Examples.minuteSeries) ∧
  length (Timestamps Examples.minuteSeries) = length (Values Examples.minuteSeries) ∧
  ∃ current shifted,
    getMetricDataEventHandler 1000 1200 60 "PT1M" 1 Examples.minuteSeries
      = Some (inr (current :: shifted)) ∧
    Label current = "current"%string ∧
    let kept :=
      List.filter (onWalkedGrid (roundedStart 1000 60) 1200 60)
        (zip (Timestamps Examples.minuteSeries) (Values Examples.minuteSeries)) in
    Timestamps current = kept.*1 ∧ Values current = kept.*2.
Proof.
  assert (Hsorted : StronglySorted Z.lt (Timestamps Examples.minuteSeries))
    by (repeat constructor).
  split; [lia |]. split; [reflexivity |]. split; [exact Hsorted |]. split; [reflexivity |].
  apply (current_series_is_raw_on_walked_grid 1000 1200 60 "PT1M" 1 60 1
           Examples.minuteSeries); [lia | reflexivity | exact Hsorted | reflexivity].
Defined.

(** For the window from 1000 to 1200 with period 60 the walk starts at 960:
    the series of shift index 0 holds the raw sample recorded at 960, which
    the raw series restricted to the query window does not. *)
Lemma current_series_not_restricted_to_window :
  getMetricDataEventHandler 1000 1200 60 "PT1M" 1 Examples.minuteSeries
    = Some (inr [ {| Id := None; Label := "current";
                     Timestamps := [960; 1020; 1080; 1140];
                     Values := [1%Q; 2%Q; 3%Q; 4%Q];
                     Status := Some "Complete"%string; StatusCode := None |};
                  {| Id := None; Label := "- 1m";
                     Timestamps := [960; 1020; 1080; 1140];
                     Values := [0%Q; 1%Q; 2%Q; 3%Q];
                     Status := Some "Complete"%string; StatusCode := None |} ]) ∧
  List.filter (inQueryWindow 1000 1200)
    (zip (Timestamps Examples.minuteSeries) (Values Examples.minuteSeries))
    = [(1020, 2%Q); (1080, 3%Q); (1140, 4%Q)] ∧
  [960; 1020; 1080; 1140] ≠ [1020; 1080; 1140].
Proof.
  split; [reflexivity |]. split; [reflexivity |]. discriminate.
Qed.

End TimeShiftFacts.

Module OutputWindow.
Import Examples.

Lemma movingAverage_spec_timestamps (m : gmap Z Q) (S P slots : Z) (times : list Z) (t : Z) :
  In t (MovingAverage.movingAverage_spec m S P slots times).*1 → In t times ∧ S <= t.
Proof.
  intros Hin. apply list_elem_of_In, list_elem_of_fmap in Hin as ([t' v] & -> & Hin).
  apply list_elem_of_omap in Hin as (t'' & Hin & Heq).
  destruct (Z.leb_spec S t''); [| done].
  destruct (MovingAverage.windowAverage m t'' P slots); simplify_eq/=.
  split; [by apply list_elem_of_In | done].
Qed.

Lemma Forall2_In_r {A B} (R : A → B → Prop) (l : list A) (k : list B) (y : B) :
  Forall2 R l k → In y k → ∃ x, In x l ∧ R x y.
Proof.
  induction 1 as [| x y' l k HR Hall IH]; [done |].
  intros [<- | Hin].
  - exists x. split; [by left | done].
  - destruct (IH Hin) as (x' & Hx' & HR'). exists x'. split; [by right | done].
Qed.

(** C3 (as amended): with a positive period, every timestamp of the
    moving-average series lies in [[StartTime, EndTime)], and every timestamp
    of every time-shift series lies in [[roundedStart, EndTime)], where
    [roundedStart = StartTime - StartTime % Period] is [StartTime] rounded to
    a multiple of the period; the two windows coincide when the period
    divides [StartTime]. *)
Theorem output_timestamps_within_walk (StartTime EndTime Period : Z) :
  0 < Period →
  (∀ N firstMetric secondMetric series s t,
     MovingAverage.getMetricDataEventHandler StartTime EndTime Period N
       firstMetric secondMetric = Some (inr series) →
     In s series → In t (Timestamps s) →
     StartTime <= t < EndTime) ∧
  (∀ shiftIntervalString numberOfShifts raw series s t,
     TimeShift.getMetricDataEventHandler StartTime EndTime Period
       shiftIntervalString numberOfShifts raw = Some (inr series) →
     In s series → In t (Timestamps s) →
     TimeShift.roundedStart StartTime Period <= t < EndTime ∧
     (Z.rem StartTime Period = 0 → StartTime <= t < EndTime)).
Proof.
  intros HP. split.
  - intros N firstMetric secondMetric series s t Hrun Hs Ht.
    unfold MovingAverage.getMetricDataEventHandler in Hrun.
    destruct (N <? 2); [done |]. cbv zeta in Hrun.
    destruct (MovingAverage.earliestOf _) as [earliest |]; [| done].
    destruct (MovingAverageFacts.metricDataToMovingAverage_keptSlots
                (MovingAverage.selectMetricData firstMetric secondMetric)
                earliest StartTime EndTime Period HP) as (out & Hout & _ & Hts & _).
    rewrite Hout in Hrun. simplify_eq/=. destruct Hs as [<- | []].
    rewrite Hts in Ht. apply movingAverage_spec_timestamps in Ht as [Hgrid Hge].
    apply elem_of_grid in Hgrid; lia.
  - intros shiftIntervalString numberOfShifts raw series s t Hrun Hs Ht.
    assert (TimeShift.roundedStart StartTime Period <= t < EndTime) as Hbounds.
    { destruct (TimeShift.validateGetMetricDataRequest shiftIntervalString numberOfShifts)
        as [err | [shiftInterval shifts]] eqn:Hvalid.
      { unfold TimeShift.getMetricDataEventHandler in Hrun. rewrite Hvalid in Hrun.
        simplify_eq. }
      destruct (TimeShiftFacts.handler_series StartTime EndTime Period shiftIntervalString
                  numberOfShifts shiftInterval shifts raw HP Hvalid)
        as (series' & Hseries & Hall).
      rewrite Hseries in Hrun. simplify_eq.
      destruct (Forall2_In_r _ _ _ _ Hall Hs) as (i & _ & Hmetric).
      destruct (TimeShiftFacts.shiftedMetric_grid (buildTimestampMap raw)
                  (TimeShift.roundedStart StartTime Period) EndTime Period shiftInterval i HP)
        as (metric & Hmetric' & _ & Hts & _).
      rewrite Hmetric' in Hmetric. simplify_eq.
      rewrite Hts in Ht. apply TimeShiftFacts.shiftedPoints_timestamps in Ht.
      apply elem_of_grid in Ht; lia. }
    split; [done |]. intros Hrem. unfold TimeShift.roundedStart in Hbounds.
    rewrite Hrem in Hbounds. lia.
Qed.

Lemma output_timestamps_within_walk_witness :
  0 < 60 ∧
  (MovingAverage.getMetricDataEventHandler 1000 1120 60 3 metricSeries fullTimer
   = Some (inr [ {| Id := None; Label := "CPUUtilization";
                    Timestamps := [1000; 1060]; Values := [8 # 2; 15 # 3];
                    Status := Some "Complete"%string; StatusCode := None |} ])) ∧
  1000 <= 1060 < 1120.
Proof.
  split; [lia |]. split; [reflexivity |].
  destruct (output_timestamps_within_walk 1000 1120 60) as [Haverage _]; [lia |].
  eapply (Haverage 3 metricSeries fullTimer).
  - reflexivity.
  - left. reflexivity.
  - right. left. reflexivity.
Defined.

(** The time-shift walk starts at [roundedStart], here 960, before the
    [StartTime] 1000, and the sample recorded there is emitted in both
    series. *)
Lemma timeshift_emits_before_StartTime :
  TimeShift.getMetricDataEventHandler 1000 1200 60 "PT1M" 1 minuteSeries
    = Some (inr [ {| Id := None; Label := "current";
                     Timestamps := [960; 1020; 1080; 1140];
                     Values := [1%Q; 2%Q; 3%Q; 4%Q];
                     Status := Some "Complete"%string; StatusCode := None |};
                  {| Id := None; Label := "- 1m";
                     Timestamps := [960; 1020; 1080; 1140];
                     Values := [0%Q; 1%Q; 2%Q; 3%Q];
                     Status := Some "Complete"%string; StatusCode := None |} ]) ∧
  ¬ (1000 <= 960 < 1200).
Proof.
  split; [reflexivity | lia].
Qed.

End OutputWindow.

Module HelloWorldFacts.
Import MultiRegion HelloWorld.

Lemma pushDataPoint_fold (value : Q) (times : list Z) (data : list (Z * Q)) :
  fold_left (λ data time, pushDataPoint value time data) times data
  = data ++ ((λ time, (time, value)) <$> times).
Proof.
  revert data. induction times as [| t times IH]; intros data; simpl.
  - by rewrite app_nil_r.
  - rewrite IH. unfold pushDataPoint. by rewrite <- app_assoc.
Qed.

Lemma length_gridFrom (n : nat) (start Period : Z) :
  length (gridFrom n start Period) = n.
Proof.
  revert start. induction n as [| n IH]; intros start; simpl; [done | by rewrite IH].
Qed.

(** X1: for a positive period and a well-formed request the hello world
    connector answers with one complete series under the requested label,
    whose timestamps are, in ascending order, exactly the grid timestamps
    [StartTime + k * Period] below [EndTime], and whose values all are the
    requested value, one for each timestamp. *)
Theorem hello_world_series (event : Event) (metricName : string) (value : Q) :
  0 < Period event →
  EventType event = "GetMetricData"%string →
  Arguments event = [ArgString metricName; ArgNumber value] →
  ∃ series,
    handler event = Some (MetricDataResults [series]) ∧
    Label series = metricName ∧
    StatusCode series = Some "Complete"%string ∧
    StronglySorted Z.lt (Timestamps series) ∧
    (∀ t, In t (Timestamps series) ↔
          StartTime event <= t < EndTime event ∧
          (t - StartTime event) mod Period event = 0) ∧
    Values series = replicate (length (Timestamps series)) value ∧
    length (Timestamps series)
      = Z.to_nat ((EndTime event - StartTime event + Period event - 1) / Period event).
Proof.
  intros HP Htype Hargs. unfold handler, getMetricDataEventHandler,
    validateGetMetricDataRequest. rewrite Htype, Hargs. cbn [String.eqb].
  simpl. rewrite forTime_grid by done. cbn [mbind option_bind].
  rewrite pushDataPoint_fold. cbn [app].
  eexists. split; [done |]. cbn [Label StatusCode Timestamps Values].
  rewrite <- !list_fmap_compose.
  assert (Hts : (fst ∘ (λ time : Z, (time, value))) <$> grid (StartTime event)
                  (EndTime event) (Period event)
                = grid (StartTime event) (EndTime event) (Period event)).
  { rewrite <- (list_fmap_id (grid _ _ _)) at 2. by apply list_fmap_ext. }
  rewrite Hts. split_and!; [done | done | | | |].
  - by apply gridFrom_sorted.
  - intros t. by apply elem_of_grid.
  - generalize (grid (StartTime event) (EndTime event) (Period event)).
    intros l. induction l as [| t l IH]; simpl; [done | f_equal; exact IH].
  - unfold grid. by rewrite length_gridFrom.
Qed.

Lemma hello_world_series_witness :
  0 < Period Examples.helloEvent ∧
  EventType Examples.helloEvent = "GetMetricData"%string ∧
  Arguments Examples.helloEvent = [ArgString "metricLabel"; ArgNumber 10%Q] ∧
  ∃ series,
    handler Examples.helloEvent = Some (MetricDataResults [series]) ∧
    Label series = "metricLabel"%string ∧
    StatusCode series = Some "Complete"%string ∧
    StronglySorted Z.lt (Timestamps series) ∧
    (∀ t, In t (Timestamps series) ↔
          StartTime Examples.helloEvent <= t < EndTime Examples.helloEvent ∧
          (t - StartTime Examples.helloEvent) mod Period Examples.helloEvent = 0) ∧
    Values series = replicate (length (Timestamps series)) 10%Q ∧
    length (Timestamps series)
      = Z.to_nat ((EndTime Examples.helloEvent - StartTime Examples.helloEvent
                   + Period Examples.helloEvent - 1) / Period Examples.helloEvent).
Proof.
  split; [reflexivity |]. split; [reflexivity |]. split; [reflexivity |].
  apply (hello_world_series Examples.helloEvent "metricLabel" 10%Q); reflexivity.
Defined.

(** X2: a compute request to the hello world connector is answered with
    series exactly when its arguments are one string followed by one number;
    any other argument list is answered, not thrown, with a [Validation]
    error and no series. *)
Theorem hello_world_validation (event : Event) :
  0 < Period event →
  EventType event = "GetMetricData"%string →
  ((∃ metricName value, Arguments event = [ArgString metricName; ArgNumber value]) ∧
   (∃ series, handler event = Some (MetricDataResults series))) ∨
  ((¬ ∃ metricName value, Arguments event = [ArgString metricName; ArgNumber value]) ∧
   (∃ msg, handler event = Some (Error "Validation" msg))).
Proof.
  intros HP Htype.
  destruct (Arguments event) as [| [name | n] [| [s | value] [| a args]]] eqn:Hargs.
  all: try (right; split;
            [ intros (? & ? & ?); discriminate
            | unfold handler, getMetricDataEventHandler, validateGetMetricDataRequest;
              rewrite Htype, Hargs; simpl; eexists; reflexivity ]).
  left. split; [by eexists _, _ |].
  destruct (hello_world_series event name value HP Htype Hargs) as (series & Hrun & _).
  by exists [series].
Qed.

Lemma hello_world_validation_witness :
  0 < Period Examples.helloEvent ∧
  EventType Examples.helloEvent = "GetMetricData"%string ∧
  (((∃ metricName value,
       Arguments Examples.helloEvent = [ArgString metricName; ArgNumber value]) ∧
    (∃ series, handler Examples.helloEvent = Some (MetricDataResults series))) ∨
   ((¬ ∃ metricName value,
       Arguments Examples.helloEvent = [ArgString metricName; ArgNumber value]) ∧
    (∃ msg, handler Examples.helloEvent = Some (Error "Validation" msg)))).
Proof.
  split; [reflexivity |]. split; [reflexivity |].
  apply (hello_world_validation Examples.helloEvent); reflexivity.
Defined.

End HelloWorldFacts.

Module HistogramBins.
Import Histogram HistogramFacts.

Lemma Int_part_half (b : Z) : Int_part (IZR b + 1 / 2) = b.
Proof. symmetry. apply Int_part_spec. lra. Qed.

Lemma constrain_id (b : Z) :
  MIN_BIN_RANGE <= b <= MAX_BIN_RANGE → constrainBinToAllowedRange b = b.
Proof.
  unfold constrainBinToAllowedRange, MIN_BIN_RANGE, MAX_BIN_RANGE.
  intros Hb. repeat case_match; lia.
Qed.

Lemma floor_of_scaled (b : Z) (offset : R) :
  (ln (exp ((IZR b + offset) * BIN_SIZE)) / BIN_SIZE = IZR b + offset)%R.
Proof.
  pose proof BIN_SIZE_pos. rewrite ln_exp. field. lra.
Qed.

(** X3: every bin index the mapping can produce is recovered from a value
    inside the bin: taking the value half a bin above the bottom of bin [b]
    and mapping it back gives [b], for the negative bins, the zero bin and the
    positive bins alike. *)
Theorem getBinNumber_getValueWithinBin (b : Z) :
  NEGATIVE_ONE_BIN_OFFSET - MAX_BIN_RANGE <= b <= MAX_BIN_RANGE →
  getBinNumber (getValueWithinBin b (1 / 2)) = b.
Proof.
  intros Hb. unfold getValueWithinBin.
  destruct (Z.eqb_spec b ZERO_VALUE_BIN) as [-> | Hzero]; [apply getBinNumber_zero |].
  destruct (Z.leb_spec b SMALLEST_BIN) as [Hneg | Hpos].
  - assert (MIN_BIN_RANGE <= NEGATIVE_ONE_BIN_OFFSET - b <= MAX_BIN_RANGE) as Hrange.
    { revert Hb Hneg. unfold SMALLEST_BIN, NEGATIVE_ONE_BIN_OFFSET, MIN_BIN_RANGE,
        MAX_BIN_RANGE. lia. }
    rewrite (constrain_id _ Hrange).
    set (x := ((IZR (NEGATIVE_ONE_BIN_OFFSET - b) + 1 / 2) * BIN_SIZE)%R).
    pose proof (exp_pos x) as Hx.
    rewrite getBinNumber_neg by lra.
    replace (- (-1 * exp x))%R with (exp x) by lra.
    unfold x. rewrite floor_of_scaled, Int_part_half, (constrain_id _ Hrange). lia.
  - assert (MIN_BIN_RANGE <= b <= MAX_BIN_RANGE) as Hrange.
    { revert Hb Hpos Hzero. unfold ZERO_VALUE_BIN, SMALLEST_BIN, NEGATIVE_ONE_BIN_OFFSET,
        MIN_BIN_RANGE, MAX_BIN_RANGE. lia. }
    rewrite (constrain_id _ Hrange).
    set (x := ((IZR b + 1 / 2) * BIN_SIZE)%R).
    pose proof (exp_pos x) as Hx.
    rewrite getBinNumber_pos by lra.
    replace (1 * exp x)%R with (exp x) by lra.
    unfold x. by rewrite floor_of_scaled, Int_part_half, (constrain_id _ Hrange).
Qed.

Lemma getBinNumber_getValueWithinBin_witness :
  NEGATIVE_ONE_BIN_OFFSET - MAX_BIN_RANGE <= -7002 <= MAX_BIN_RANGE ∧
  getBinNumber (getValueWithinBin (-7002) (1 / 2)) = -7002.
Proof.
  assert (H : NEGATIVE_ONE_BIN_OFFSET - MAX_BIN_RANGE <= -7002 <= MAX_BIN_RANGE)
    by (vm_compute; split; discriminate).
  exact (conj H (getBinNumber_getValueWithinBin (-7002) H)).
Defined.

(** X5: the mapping saturates instead of running away: every value, however
    large or small its magnitude, maps into the bins from
    [NEGATIVE_ONE_BIN_OFFSET - MAX_BIN_RANGE] to [MAX_BIN_RANGE]; positive
    values stay at or above [MIN_BIN_RANGE], negative values at or below
    [SMALLEST_BIN], and every value from [exp (MAX_BIN_RANGE * BIN_SIZE)] up
    shares the last bin. *)
Theorem getBinNumber_saturates (v : R) :
  NEGATIVE_ONE_BIN_OFFSET - MAX_BIN_RANGE <= getBinNumber v <= MAX_BIN_RANGE ∧
  ((0 < v)%R → MIN_BIN_RANGE <= getBinNumber v) ∧
  ((v < 0)%R → getBinNumber v <= SMALLEST_BIN) ∧
  (∀ big : R, (exp (IZR MAX_BIN_RANGE * BIN_SIZE) <= big)%R →
              getBinNumber big = MAX_BIN_RANGE).
Proof.
  assert (Hpos : (0 < v)%R → MIN_BIN_RANGE <= getBinNumber v <= MAX_BIN_RANGE)
    by apply getBinNumber_pos_range.
  assert (Hneg : (v < 0)%R →
                 NEGATIVE_ONE_BIN_OFFSET - MAX_BIN_RANGE <= getBinNumber v
                 <= NEGATIVE_ONE_BIN_OFFSET - MIN_BIN_RANGE)
    by apply getBinNumber_neg_range.
  split; [| split; [| split]].
  - destruct (Rtotal_order v 0) as [H | [-> | H]].
    + specialize (Hneg H). revert Hneg.
      unfold NEGATIVE_ONE_BIN_OFFSET, MIN_BIN_RANGE, MAX_BIN_RANGE. lia.
    + rewrite getBinNumber_zero.
      unfold ZERO_VALUE_BIN, NEGATIVE_ONE_BIN_OFFSET, MIN_BIN_RANGE, MAX_BIN_RANGE. lia.
    + specialize (Hpos H). revert Hpos.
      unfold NEGATIVE_ONE_BIN_OFFSET, MIN_BIN_RANGE, MAX_BIN_RANGE. lia.
  - intros H. by destruct (Hpos H).
  - intros H. specialize (Hneg H). revert Hneg.
    unfold SMALLEST_BIN, NEGATIVE_ONE_BIN_OFFSET, MIN_BIN_RANGE, MAX_BIN_RANGE. lia.
  - intros big Hbig. pose proof BIN_SIZE_pos as Hw.
    pose proof (exp_pos (IZR MAX_BIN_RANGE * BIN_SIZE)) as Hexp.
    rewrite getBinNumber_pos by lra.
    assert (IZR MAX_BIN_RANGE <= ln big / BIN_SIZE)%R as Hle.
    { assert (IZR MAX_BIN_RANGE * BIN_SIZE <= ln big)%R as Hln.
      { rewrite <- (ln_exp (IZR MAX_BIN_RANGE * BIN_SIZE)).
        destruct Hbig as [Hlt | <-]; [left; apply ln_increasing; lra | right; done]. }
      apply (Rmult_le_reg_r BIN_SIZE); [done |].
      unfold Rdiv. rewrite Rmult_assoc, Rinv_l, Rmult_1_r; lra. }
    apply Int_part_mono in Hle.
    replace (Int_part (IZR MAX_BIN_RANGE)) with MAX_BIN_RANGE in Hle
      by (apply Int_part_spec; lra).
    revert Hle. unfold constrainBinToAllowedRange, MIN_BIN_RANGE, MAX_BIN_RANGE.
    repeat case_match; lia.
Qed.

Lemma getBinNumber_saturates_witness :
  (0 < 1)%R ∧ MIN_BIN_RANGE <= getBinNumber 1 ∧
  (exp (IZR MAX_BIN_RANGE * BIN_SIZE) <= exp (IZR MAX_BIN_RANGE * BIN_SIZE))%R ∧
  getBinNumber (exp (IZR MAX_BIN_RANGE * BIN_SIZE)) = MAX_BIN_RANGE.
Proof.
  assert (H1 : (0 < 1)%R) by lra.
  assert (H2 : (exp (IZR MAX_BIN_RANGE * BIN_SIZE) <= exp (IZR MAX_BIN_RANGE * BIN_SIZE))%R)
    by apply Rle_refl.
  destruct (getBinNumber_saturates 1%R) as (_ & Hpos & _ & Hbig).
  exact (conj H1 (conj (Hpos H1) (conj H2 (Hbig _ H2)))).
Defined.

(** X6: the period the histogram connector asks the backend for is a whole
    number of periods that strictly exceeds the time range, by at most one
    period: a range that already is a multiple of [Period] is still extended
    by a full period. *)
Theorem rangePeriod_covers_range (StartTime EndTime Period : Z) :
  0 < Period → StartTime <= EndTime →
  (Period | rangePeriod StartTime EndTime Period) ∧
  EndTime - StartTime < rangePeriod StartTime EndTime Period
    <= EndTime - StartTime + Period ∧
  ((Period | EndTime - StartTime) →
   rangePeriod StartTime EndTime Period = EndTime - StartTime + Period).
Proof.
  intros HP Hle. unfold rangePeriod. cbv zeta.
  set (timeRange := EndTime - StartTime).
  assert (0 <= timeRange) as Hrange by (unfold timeRange; lia).
  pose proof (Z.rem_bound_pos timeRange Period Hrange HP) as Hrem.
  pose proof (Z.quot_rem' timeRange Period) as Hquot.
  split; [| split].
  - exists (timeRange ÷ Period + 1). lia.
  - lia.
  - intros Hdiv. apply Z.rem_divide in Hdiv; [| lia]. lia.
Qed.

Lemma rangePeriod_covers_range_witness :
  0 < 60 ∧ 1000 <= 1600 ∧
  (60 | rangePeriod 1000 1600 60) ∧
  1600 - 1000 < rangePeriod 1000 1600 60 <= 1600 - 1000 + 60 ∧
  ((60 | 1600 - 1000) → rangePeriod 1000 1600 60 = 1600 - 1000 + 60).
Proof.
  assert (H1 : 0 < 60) by lia. assert (H2 : 1000 <= 1600) by lia.
  exact (conj H1 (conj H2 (rangePeriod_covers_range 1000 1600 60 H1 H2))).
Defined.

Lemma round_of_integer (z : Z) : round (inject_Z z) = z.
Proof.
  unfold round, Qfloor, Qplus, inject_Z. simpl.
  Z.div_mod_to_equations. lia.
Qed.

Lemma round_error (x : Q) :
  (x - (1 # 2) < inject_Z (round x))%Q ∧ (inject_Z (round x) <= x + (1 # 2))%Q.
Proof.
  unfold round. pose proof (Qfloor_le (x + (1 # 2))) as Hle.
  pose proof (Qlt_floor (x + (1 # 2))) as Hlt.
  rewrite inject_Z_plus in Hlt. change (inject_Z 1) with 1%Q in Hlt.
  split; lra.
Qed.

(** X7: a percentage between 0 and 100 becomes a count between 0 and the
    sample count. *)
Theorem percentToCount_bounds (sampleCount : Z) (percent : Q) :
  0 <= sampleCount → (0 <= percent)%Q → (percent <= 100)%Q →
  0 <= percentToCount (inject_Z sampleCount) percent <= sampleCount.
Proof.
  intros Hn Hlo Hhi. unfold percentToCount.
  assert (Hn' : (0 <= inject_Z sampleCount)%Q).
  { change 0%Q with (inject_Z 0). by rewrite <- Zle_Qle. }
  set (x := (percent * inject_Z sampleCount / 100)%Q).
  assert (Hx : (0 <= x)%Q ∧ (x <= inject_Z sampleCount)%Q).
  { assert (x == percent * inject_Z sampleCount * (1 # 100))%Q as -> by (unfold x; field).
    split; nra. }
  destruct Hx as [Hx0 Hx1]. unfold round. split.
  - change 0 with (Qfloor (0 + (1 # 2))). apply Qfloor_resp_le. lra.
  - pose proof (round_of_integer sampleCount) as Hr. unfold round in Hr.
    apply Z.le_trans with (Qfloor (inject_Z sampleCount + (1 # 2))); [| lia].
    apply Qfloor_resp_le. lra.
Qed.

Lemma percentToCount_bounds_witness :
  0 <= 200 ∧ (0 <= 12.5)%Q ∧ (12.5 <= 100)%Q ∧
  0 <= percentToCount (inject_Z 200) 12.5 <= 200.
Proof.
  assert (H1 : 0 <= 200) by lia.
  assert (H2 : (0 <= 12.5)%Q) by (vm_compute; discriminate).
  assert (H3 : (12.5 <= 100)%Q) by (vm_compute; discriminate).
  exact (conj H1 (conj H2 (conj H3 (percentToCount_bounds 200 12.5 H1 H2 H3)))).
Defined.

Lemma counts_near_shares (sampleCount : Q) (percents : list Q) :
  let total := fold_right Z.add 0 (percentToCount sampleCount <$> percents) in
  let half := (inject_Z (Z.of_nat (length percents)) * (1 # 2))%Q in
  (Qsum percents * sampleCount / 100 - half <= inject_Z total)%Q ∧
  (inject_Z total <= Qsum percents * sampleCount / 100 + half)%Q.
Proof.
  induction percents as [| percent percents IH].
  - simpl. split; vm_compute; discriminate.
  - cbv zeta in *. cbn [fmap list_fmap fold_right length Qsum].
    rewrite Nat2Z.inj_succ, <- Z.add_1_r, !inject_Z_plus.
    change (inject_Z 1) with 1%Q.
    destruct (round_error (percent * sampleCount / 100)) as [Hlo Hhi].
    fold (percentToCount sampleCount percent) in Hlo, Hhi.
    destruct IH as [IHlo IHhi].
    assert ((percent + Qsum percents) * sampleCount / 100
            == percent * sampleCount / 100 + Qsum percents * sampleCount / 100)%Q as ->
      by field.
    split; lra.
Qed.

(** X8: when the percentages of the buckets add up to 100, the counts they
    are converted to add up to the sample count, up to half a sample for each
    bucket. *)
Theorem counts_add_up_to_sample_count (sampleCount : Z) (percents : list Q) :
  Qsum percents == 100 →
  let total :=
    fold_right Z.add 0 (percentToCount (inject_Z sampleCount) <$> percents) in
  2 * Z.abs (total - sampleCount) <= Z.of_nat (length percents).
Proof.
  intros Hsum total.
  destruct (counts_near_shares (inject_Z sampleCount) percents) as [Hlo Hhi].
  fold total in Hlo, Hhi. rewrite Hsum in Hlo, Hhi.
  assert (100 * inject_Z sampleCount / 100 == inject_Z sampleCount)%Q as Heq by field.
  rewrite Heq in Hlo, Hhi.
  set (n := Z.of_nat (length percents)) in *.
  assert (2 * inject_Z total - 2 * inject_Z sampleCount <= inject_Z n)%Q as H1 by lra.
  assert (2 * inject_Z sampleCount - 2 * inject_Z total <= inject_Z n)%Q as H2 by lra.
  change 2%Q with (inject_Z 2) in H1, H2.
  rewrite <- !inject_Z_mult, <- !inject_Z_sub, <- Zle_Qle in H1, H2. lia.
Qed.

Lemma counts_add_up_to_sample_count_witness :
  Qsum [33.3; 33.3; 33.4]%Q == 100 ∧
  2 * Z.abs (fold_right Z.add 0 (percentToCount (inject_Z 10) <$> [33.3; 33.3; 33.4]%Q) - 10)
    <= Z.of_nat (length [33.3; 33.3; 33.4]%Q).
Proof.
  assert (H : Qsum [33.3; 33.3; 33.4]%Q == 100) by reflexivity.
  exact (conj H (counts_add_up_to_sample_count 10 [33.3; 33.3; 33.4]%Q H)).
Defined.

Lemma collectBasicStats_lookup (results : list MetricData) :
  ∀ (basicStats m : gmap string Q),
    NoDup (statKey <$> results) →
    collectBasicStats results basicStats = inr m →
    (∀ metricData, In metricData results →
       ∃ id, Id metricData = Some id ∧
             m !! dropFirstCharacter id = head (Values metricData)) ∧
    (∀ stat, ¬ In (Some stat) (statKey <$> results) → m !! stat = basicStats !! stat).
Proof.
  induction results as [| r results IH]; intros basicStats m Hnodup Hrun.
  - simpl in Hrun. injection Hrun as <-. split; [intros ? [] | done].
  - cbn [collectBasicStats] in Hrun. cbn [fmap list_fmap] in Hnodup.
    apply NoDup_cons in Hnodup as [Hfresh Hnodup].
    destruct (Id r) as [id |] eqn:Hid; [| done].
    apply IH in Hrun as [Hin Hout]; [| done].
    assert (Hkey : statKey r = Some (dropFirstCharacter id))
      by (unfold statKey; by rewrite Hid).
    split.
    + intros metricData [<- | Hmd]; [| by apply Hin].
      exists id. split; [done |]. rewrite Hout.
      * destruct (head (Values r)); [by rewrite lookup_insert_eq | by rewrite lookup_delete_eq].
      * rewrite <- Hkey. intros Habs. apply Hfresh. by apply list_elem_of_In.
    + intros stat Hstat. cbn [fmap list_fmap In] in Hstat.
      rewrite Hout by tauto.
      assert (dropFirstCharacter id ≠ stat) as Hne
        by (intros <-; apply Hstat; left; done).
      destruct (head (Values r)); [by rewrite lookup_insert_ne | by rewrite lookup_delete_ne].
Qed.

Lemma collectBasicStats_runs (results : list MetricData) :
  ∀ basicStats : gmap string Q,
    (∀ metricData, In metricData results → is_Some (Id metricData)) →
    ∃ m, collectBasicStats results basicStats = inr m.
Proof.
  induction results as [| r results IH]; intros basicStats Hids; simpl; [by eexists |].
  destruct (Hids r) as [id ->]; [by left |].
  apply IH. intros ? ?. apply Hids. by right.
Qed.

(** X10: the basic statistics are matched to the returned series by
    identifier, not by position: when the series' identifiers, less their
    first character, are distinct, each statistic is the first value of the
    series of that name (absent when the series is empty), and any
    reordering of the returned series yields the same statistics. *)
Theorem basic_stats_matched_by_id (results : list MetricData) (basicStats : gmap string Q) :
  NoDup (statKey <$> results) →
  collectBasicStats results ∅ = inr basicStats →
  (∀ metricData, In metricData results →
     ∃ id, Id metricData = Some id ∧
           basicStats !! dropFirstCharacter id = head (Values metricData)) ∧
  (∀ reordered, results ≡ₚ reordered →
                collectBasicStats reordered ∅ = inr basicStats).
Proof.
  intros Hnodup Hrun.
  destruct (collectBasicStats_lookup results ∅ basicStats Hnodup Hrun) as [Hin Hout].
  split; [done |]. intros reordered Hperm.
  assert (Hnodup' : NoDup (statKey <$> reordered)) by (by rewrite <- Hperm).
  destruct (collectBasicStats_runs reordered ∅) as [m Hm].
  { intros metricData Hmd. apply list_elem_of_In in Hmd. rewrite <- Hperm in Hmd.
    apply list_elem_of_In in Hmd. destruct (Hin _ Hmd) as (id & -> & _). by eexists. }
  rewrite Hm. f_equal.
  destruct (collectBasicStats_lookup reordered ∅ m Hnodup' Hm) as [Hin' Hout'].
  apply map_eq. intros stat.
  destruct (decide (Some stat ∈ statKey <$> results)) as [Hstat | Hstat].
  - pose proof Hstat as Hstat'.
    apply list_elem_of_fmap in Hstat as (metricData & Hkey & Hmd).
    pose proof Hmd as Hmd'. rewrite Hperm in Hmd'.
    apply list_elem_of_In in Hmd, Hmd'.
    destruct (Hin _ Hmd) as (id & Hid & Hlook).
    unfold statKey in Hkey. rewrite Hid in Hkey. injection Hkey as ->.
    destruct (Hin' _ Hmd') as (id' & Hid' & Hlook').
    rewrite Hid in Hid'. injection Hid' as <-. by rewrite Hlook, Hlook'.
  - rewrite Hout' by (rewrite <- list_elem_of_In, <- Hperm; done).
    rewrite Hout by (by rewrite <- list_elem_of_In). done.
Qed.

Lemma basic_stats_matched_by_id_witness :
  NoDup (statKey <$> Examples.basicStatsResults) ∧
  collectBasicStats Examples.basicStatsResults ∅
    = inr (<["Minimum"%string := 2%Q]> (<["Maximum"%string := 90%Q]> ∅)) ∧
  (∀ metricData, In metricData Examples.basicStatsResults →
     ∃ id, Id metricData = Some id ∧
           (<["Minimum"%string := 2%Q]> (<["Maximum"%string := 90%Q]> ∅) : gmap string Q)
             !! dropFirstCharacter id = head (Values metricData)) ∧
  (∀ reordered, Examples.basicStatsResults ≡ₚ reordered →
     collectBasicStats reordered ∅
     = inr (<["Minimum"%string := 2%Q]> (<["Maximum"%string := 90%Q]> ∅))).
Proof.
  assert (H1 : NoDup (statKey <$> Examples.basicStatsResults)).
  { cbn. constructor; [| constructor; [| constructor]].
    - intros H. apply list_elem_of_In in H. destruct H as [H | []]. discriminate H.
    - intros H. apply list_elem_of_In in H. destruct H. }
  assert (H2 : collectBasicStats Examples.basicStatsResults ∅
               = inr (<["Minimum"%string := 2%Q]> (<["Maximum"%string := 90%Q]> ∅)))
    by reflexivity.
  exact (conj H1 (conj H2 (basic_stats_matched_by_id _ _ H1 H2))).
Defined.

End HistogramBins.

Module FilterOrder.
Import Filter FilterFacts.

Lemma collapseSpaces_whiteSpace (s : string) :
  allWhiteSpace s → allWhiteSpace (collapseSpaces s).
Proof.
  unfold allWhiteSpace. induction s as [| c s IH]; [done |].
  cbn [list_ascii_of_string]. intros Hall. apply Forall_cons in Hall as [Hc Hs].
  cbn [collapseSpaces]. destruct (Ascii.eqb c " ").
  - destruct s as [| c' s']; [by repeat constructor |].
    destruct (Ascii.eqb c' " "); [by apply IH |].
    cbn [list_ascii_of_string]. constructor; [done | by apply IH].
  - cbn [list_ascii_of_string]. constructor; [done | by apply IH].
Qed.

Lemma trimStart_whiteSpace (l : list ascii) :
  Forall (λ c, isWhiteSpace c = true) l → trimStart l = [].
Proof.
  induction 1 as [| c l Hc Hl IH]; [done |]. simpl. by rewrite Hc.
Qed.

Lemma trim_whiteSpace (s : string) : allWhiteSpace s → trim s = ""%string.
Proof.
  unfold allWhiteSpace, trim. intros Hall. rewrite (trimStart_whiteSpace _ Hall).
  reflexivity.
Qed.

(** X11: a filter string of nothing but white space, of any length, is the
    empty filter, not a syntax error. *)
Theorem blank_filter_is_empty (parseFloat : string → Q) (filterString : string) :
  allWhiteSpace filterString → parseFilter parseFloat filterString = inr None.
Proof.
  intros Hall. unfold parseFilter.
  by rewrite (trim_whiteSpace _ (collapseSpaces_whiteSpace _ Hall)).
Qed.

Lemma blank_filter_is_empty_witness :
  allWhiteSpace "   " ∧ parseFilter (λ _, 0%Q) "   " = inr None.
Proof.
  assert (H : allWhiteSpace "   ") by (repeat constructor).
  exact (conj H (blank_filter_is_empty (λ _, 0%Q) "   " H)).
Defined.

End FilterOrder.

(** ** Multi region connector: the answers *)

Module MultiRegionOrder.
Import MultiRegion.

Lemma promiseAll_fulfilled (calls : list Call) :
  (∀ call, In call calls → ∃ results, outcome call = Fulfilled results) →
  promiseAll calls = inr (fulfilment <$> calls).
Proof.
  intros Hall. unfold promiseAll.
  assert (Hfold : ∀ acc, fold_left earlierRejection calls acc = acc).
  { induction calls as [| call calls IH]; intros acc; [done |]. simpl.
    destruct (Hall call) as [results Hout]; [by left |].
    unfold earlierRejection at 2. rewrite Hout. apply IH.
    intros c Hc. apply Hall. by right. }
  by rewrite Hfold.
Qed.

Lemma collateAll_Forall2 (results : list (list MetricData)) :
  Forall (λ r, ∃ out, collate r = inr out) results →
  ∃ series, collateAll results = inr series ∧
            Forall2 (λ r out, collate r = inr out) results series.
Proof.
  induction 1 as [| r results [out Hout] _ (series & Hall & Hseries)].
  - exists []. split; [done | constructor].
  - exists (out :: series). split; [| by constructor].
    cbn [collateAll]. by rewrite Hout, Hall.
Qed.

Lemma Forall2_impl_In {A B} (P Q : A → B → Prop) (l : list A) (k : list B) :
  Forall2 P l k → (∀ x y, In x l → P x y → Q x y) → Forall2 Q l k.
Proof.
  induction 1 as [| x y l k Hxy _ IH]; intros Himpl; constructor.
  - apply Himpl; [by left | done].
  - apply IH. intros x' y' Hin. apply Himpl. by right.
Qed.

(** X14: when every requested region answers, and answers with the series
    of the query it was sent, the invocation returns one series per region,
    in the order of the region list whatever the order in which the fetches
    settle; each carries the samples of its region unchanged, is labelled
    by the query id with every underscore turned into a hyphen, has status
    code [Complete] and no [Id]. *)
Theorem regions_answer_in_request_order {Metric : Type}
    (parseFullMetric : string → Exn + Metric) (cloudwatch : string → Call)
    (connectorName : string) (event : Event)
    (metric : Metric) (stat : string) (regionList : list string) :
  EventType event = "GetMetricData"%string →
  validateGetMetricDataRequest parseFullMetric (Arguments event)
    = inr (metric, stat, regionList) →
  (∀ region, In region regionList →
     ∃ first rest, outcome (cloudwatch region) = Fulfilled (first :: rest) ∧
                   Id first = Some (queryId region)) →
  ∃ series,
    handler parseFullMetric cloudwatch connectorName event = MetricDataResults series ∧
    Forall2 (λ region out,
               ∃ first rest,
                 outcome (cloudwatch region) = Fulfilled (first :: rest) ∧
                 Label out = replaceAll "_" "-" (queryId region) ∧
                 Timestamps out = Timestamps first ∧ Values out = Values first ∧
                 StatusCode out = Some "Complete"%string ∧ Id out = None)
      regionList series.
Proof.
  intros Htype Hvalid Hanswers.
  destruct (collateAll_Forall2 (fulfilment <$> (cloudwatch <$> regionList)))
    as (series & Hcollate & Hseries).
  { rewrite !Forall_fmap. apply Forall_forall. intros region Hin.
    apply list_elem_of_In, Hanswers in Hin as (first & rest & Hout & Hid).
    simpl. unfold fulfilment. rewrite Hout. unfold collate. rewrite Hid. by eexists. }
  exists series. split.
  - unfold handler, getMetricDataEventHandler. rewrite Htype, Hvalid. simpl.
    rewrite promiseAll_fulfilled, Hcollate; [done |].
    intros call Hcall. apply in_map_iff in Hcall as (region & <- & Hin).
    destruct (Hanswers region Hin) as (first & rest & Hout & _). by eexists.
  - rewrite !Forall2_fmap_l in Hseries.
    eapply Forall2_impl_In; [exact Hseries |].
    intros region out Hin Hout. simpl in Hout.
    apply Hanswers in Hin as (first & rest & Hcall & Hid).
    exists first, rest. unfold fulfilment, collate in Hout.
    rewrite Hcall, Hid in Hout. by simplify_eq/=.
Qed.

Lemma regions_answer_in_request_order_witness :
  ∃ series,
    handler (λ s, inr s) Examples.healthyBackend "MultiRegion" Examples.sampleEvent
      = MetricDataResults series ∧
    Forall2 (λ region out,
               ∃ first rest,
                 outcome (Examples.healthyBackend region) = Fulfilled (first :: rest) ∧
                 Label out = replaceAll "_" "-" (queryId region) ∧
                 Timestamps out = Timestamps first ∧ Values out = Values first ∧
                 StatusCode out = Some "Complete"%string ∧ Id out = None)
      ["us-east-1"; "eu-west-1"; "ap-south-1"]%string series.
Proof.
  apply (regions_answer_in_request_order (λ s, inr s) Examples.healthyBackend "MultiRegion"
           Examples.sampleEvent "AWS/EC2, CPUUtilization"%string "Average"%string).
  - reflexivity.
  - reflexivity.
  - intros region _. eexists _, []. split; reflexivity.
Defined.

Lemma replaceAll_restores (region : string) :
  ¬ In "_"%char (list_ascii_of_string region) →
  replaceAll "_" "-" (replaceAll "-" "_" region) = region.
Proof.
  induction region as [| c region IH]; intros Hclean; [done |].
  cbn [replaceAll]. rewrite IH by (intros ?; apply Hclean; by right). f_equal.
  destruct (Ascii.eqb_spec c "-") as [-> | Hc]; [done |].
  destruct (Ascii.eqb_spec c "_") as [-> | _]; [| done].
  exfalso. apply Hclean. by left.
Qed.

(** X15: the label gives the region name back: for a region whose name
    holds no underscore, the series answered under the query id of that
    region is labelled with the region name itself. *)
Theorem label_restores_region_name (region : string) (first out : MetricData)
    (rest : list MetricData) :
  ¬ In "_"%char (list_ascii_of_string region) →
  Id first = Some (queryId region) →
  collate (first :: rest) = inr out →
  Label out = region.
Proof.
  intros Hclean Hid Hout. unfold collate in Hout. rewrite Hid in Hout.
  simplify_eq/=. by apply replaceAll_restores.
Qed.

Lemma label_restores_region_name_witness :
  ∃ out, collate (fulfilment (Examples.healthyBackend "ap-south-1")) = inr out ∧
         Label out = "ap-south-1"%string.
Proof.
  eexists. split; [reflexivity |].
  apply (label_restores_region_name "ap-south-1" (Examples.healthySeries "ap-south-1") _ []).
  - intros [| [| [| [| [| [| [| [| [| [| []]]]]]]]]]]; discriminate.
  - reflexivity.
  - reflexivity.
Defined.

Lemma collateAll_error (results : list (list MetricData)) (err : Exn) :
  collateAll results = inl err → cause err = None.
Proof.
  induction results as [| r results IH]; [done |]. cbn [collateAll].
  destruct (collate r) as [e | out] eqn:Hr.
  - intros [= <-]. unfold collate in Hr.
    destruct r as [| metric ?]; [by simplify_eq/= |].
    destruct (Id metric); by simplify_eq/=.
  - destruct (collateAll results); [| done]. intros [= <-]. by apply IH.
Qed.

Lemma collateAll_empty_result (results : list (list MetricData)) :
  In [] results → ∃ err, collateAll results = inl err.
Proof.
  induction results as [| r results IH]; [done |]. intros [-> | Hin].
  - by eexists.
  - cbn [collateAll]. destruct (collate r); [by eexists |].
    destruct (IH Hin) as [err ->]. by eexists.
Qed.

(** X16: an answer without any series is not tolerated: when every region
    answers but the answer of one of them holds no series, the invocation
    fails as a whole with an [InternalError], and returns no series of the
    other regions. *)
Theorem empty_region_answer_is_internal_error {Metric : Type}
    (parseFullMetric : string → Exn + Metric) (cloudwatch : string → Call)
    (connectorName : string) (event : Event)
    (metric : Metric) (stat : string) (regionList : list string) (region : string) :
  EventType event = "GetMetricData"%string →
  validateGetMetricDataRequest parseFullMetric (Arguments event)
    = inr (metric, stat, regionList) →
  (∀ region, In region regionList → ∃ results, outcome (cloudwatch region) = Fulfilled results) →
  In region regionList →
  outcome (cloudwatch region) = Fulfilled [] →
  ∃ msg, handler parseFullMetric cloudwatch connectorName event = Error "InternalError" msg.
Proof.
  intros Htype Hvalid Hanswers Hin Hempty.
  destruct (collateAll_empty_result (fulfilment <$> (cloudwatch <$> regionList)))
    as [err Herr].
  { apply in_map_iff. exists (cloudwatch region). split.
    - unfold fulfilment. by rewrite Hempty.
    - by apply in_map. }
  exists (message err).
  unfold handler, getMetricDataEventHandler. rewrite Htype, Hvalid. simpl.
  rewrite promiseAll_fulfilled, Herr.
  - unfold catchToResponse, errorCode. by rewrite (collateAll_error _ _ Herr).
  - intros call Hcall. apply in_map_iff in Hcall as (reg & <- & Hreg). by apply Hanswers.
Qed.

Lemma empty_region_answer_is_internal_error_witness :
  ∃ msg, handler (λ s, inr s) Examples.emptyBackend "MultiRegion" Examples.sampleEvent
         = Error "InternalError" msg.
Proof.
  apply (empty_region_answer_is_internal_error (λ s, inr s) Examples.emptyBackend
           "MultiRegion" Examples.sampleEvent "AWS/EC2, CPUUtilization"%string
           "Average"%string ["us-east-1"; "eu-west-1"; "ap-south-1"]%string
           "eu-west-1"%string).
  - reflexivity.
  - reflexivity.
  - intros region [<- | [<- | [<- | []]]]; by eexists.
  - right. left. reflexivity.
  - reflexivity.
Defined.

Lemma list_ascii_of_string_app (a b : string) :
  list_ascii_of_string (a ++ b) = list_ascii_of_string a ++ list_ascii_of_string b.
Proof. induction a as [| c a IH]; [done |]. simpl. by rewrite IH. Qed.

Lemma splitAux_fields (sep : ascii) (s field f : string) :
  ¬ In sep (list_ascii_of_string field) →
  In f (splitAux sep s field) → ¬ In sep (list_ascii_of_string f).
Proof.
  revert field. induction s as [| c s IH]; intros field Hfield; simpl.
  - intros [<- | []]. done.
  - destruct (Ascii.eqb_spec c sep) as [-> | Hc].
    + intros [<- | Hin]; [done |]. by apply (IH EmptyString); [intros [] |].
    + apply IH. rewrite list_ascii_of_string_app, in_app_iff. simpl.
      intros [? | [? | []]]; done.
Qed.

Lemma trimStart_suffix (l : list ascii) : ∃ p, l = p ++ trimStart l.
Proof.
  induction l as [| c l [p Hp]]; [by exists [] |]. simpl.
  destruct (isWhiteSpace c); [| by exists []].
  exists (c :: p). simpl. by f_equal.
Qed.

Lemma trimStart_head (l : list ascii) (c : ascii) (rest : list ascii) :
  trimStart l = c :: rest → isWhiteSpace c = false.
Proof.
  induction l as [| x l IH]; [done |]. simpl.
  destruct (isWhiteSpace x) eqn:Hx; [done |]. by intros [= <- _].
Qed.

Lemma trimStart_fixed (l : list ascii) :
  match l with c :: _ => isWhiteSpace c = false | [] => True end → trimStart l = l.
Proof. destruct l as [| c l]; [done |]. simpl. by intros ->. Qed.

Lemma trim_chars (s : string) (c : ascii) :
  In c (list_ascii_of_string (trim s)) → In c (list_ascii_of_string s).
Proof.
  unfold trim. rewrite list_ascii_of_string_of_list_ascii, <- in_rev.
  destruct (trimStart_suffix (rev (trimStart (list_ascii_of_string s)))) as [p Hp].
  destruct (trimStart_suffix (list_ascii_of_string s)) as [q Hq].
  intros Hin. rewrite Hq, in_app_iff. right.
  apply in_rev. rewrite Hp, in_app_iff. by right.
Qed.

Lemma trim_trim (s : string) : trim (trim s) = trim s.
Proof.
  unfold trim. rewrite list_ascii_of_string_of_list_ascii.
  set (A := trimStart (list_ascii_of_string s)).
  set (B := trimStart (rev A)).
  assert (HA : match A with c :: _ => isWhiteSpace c = false | [] => True end).
  { destruct A as [| c A'] eqn:HA; [done |]. by eapply trimStart_head. }
  assert (HB : match B with c :: _ => isWhiteSpace c = false | [] => True end).
  { destruct B as [| c B'] eqn:HB; [done |]. by eapply trimStart_head. }
  assert (Hfront : trimStart (rev B) = rev B).
  { apply trimStart_fixed. destruct (trimStart_suffix (rev A)) as [p Hp].
    fold B in Hp. apply (f_equal (@rev ascii)) in Hp.
    rewrite rev_involutive, rev_app_distr in Hp.
    destruct (rev B) as [| c ?]; [done |]. rewrite Hp in HA. done. }
  rewrite Hfront, rev_involutive, (trimStart_fixed B HB). done.
Qed.

(** X17: the regions that are queried are clean names: from an accepted
    request the connector queries at least one region, and every region it
    queries is a non-empty name without a comma and without white space
    around it. *)
Theorem queried_regions_are_clean {Metric : Type}
    (parseFullMetric : string → Exn + Metric) (args : list Argument)
    (metric : Metric) (stat : string) (regionList : list string) :
  validateGetMetricDataRequest parseFullMetric args = inr (metric, stat, regionList) →
  regionList ≠ [] ∧
  ∀ region, In region regionList →
    region ≠ ""%string ∧ trim region = region ∧
    ¬ In ","%char (list_ascii_of_string region).
Proof.
  unfold validateGetMetricDataRequest. intros Hvalid.
  destruct args as [| [fullMetric |] [| [st |] [| [regions |] [|]]]]; try done.
  destruct (parseFullMetric fullMetric); [done |].
  destruct (Nat.ltb_spec (length (List.filter (λ reg, negb (String.eqb reg ""))
                                    (trim <$> split "," regions))) 1) as [| Hlen];
    [done |].
  injection Hvalid as _ _ <-. split.
  - intros Hnil. rewrite Hnil in Hlen. simpl in Hlen. lia.
  - intros region Hin. apply filter_In in Hin as [Hin Hne].
    apply in_map_iff in Hin as (field & <- & Hfield). split_and!.
    + intros Heq. rewrite Heq in Hne. done.
    + apply trim_trim.
    + intros Hcomma. apply trim_chars in Hcomma.
      by apply (splitAux_fields "," regions EmptyString field); [intros [] | |].
Qed.

Lemma queried_regions_are_clean_witness :
  ["us-east-1"; "eu-west-1"; "ap-south-1"]%string ≠ [] ∧
  ∀ region, In region ["us-east-1"; "eu-west-1"; "ap-south-1"]%string →
    region ≠ ""%string ∧ trim region = region ∧
    ¬ In ","%char (list_ascii_of_string region).
Proof.
  apply (queried_regions_are_clean (λ s, inr s) (Arguments Examples.sampleEvent)
           "AWS/EC2, CPUUtilization"%string "Average"%string).
  reflexivity.
Defined.

End MultiRegionOrder.

(** ** Time shift connector: every shift *)

Module TimeShiftSeries.
Import TimeShift TimeShiftFacts.

Lemma In_shiftedPoints (m : gmap Z Q) (timeOffset : Z) (times : list Z) (t : Z) (v : Q) :
  In (t, v) (shiftedPoints m timeOffset times) ↔
  In t times ∧ m !! (t - timeOffset) = Some v.
Proof.
  rewrite <- !list_elem_of_In. unfold shiftedPoints. rewrite list_elem_of_omap. split.
  - intros (t' & Hin & Heq). destruct (m !! (t' - timeOffset)) eqn:Hv; by simplify_eq/=.
  - intros [Hin Hv]. exists t. by rewrite Hv.
Qed.

Lemma sorted_timestamps (points : list (Z * Q)) :
  StronglySorted earlier points → StronglySorted Z.lt points.*1.
Proof.
  induction 1 as [| p points _ IH Hp]; [constructor |].
  simpl. constructor; [done |]. rewrite Forall_fmap. done.
Qed.

(** X18: every series of the time shift is a delayed copy of the raw
    series.  An accepted request with [numberOfShifts] shifts returns
    [numberOfShifts + 1] series, and the series of shift index [i] has the
    value [v] at time [t] exactly when [t] lies on the walked grid and the
    raw series has the value [v] at [t - i * shiftInterval]; its timestamps
    ascend and each has its value. *)
Theorem every_shift_is_a_delayed_copy (StartTime EndTime Period : Z)
    (shiftIntervalString : string) (numberOfShifts shiftInterval shifts : Z)
    (raw : MetricData) :
  0 < Period →
  validateGetMetricDataRequest shiftIntervalString numberOfShifts
    = inr (shiftInterval, shifts) →
  NoDup (Timestamps raw) →
  length (Timestamps raw) = length (Values raw) →
  ∃ series,
    getMetricDataEventHandler StartTime EndTime Period shiftIntervalString numberOfShifts raw
      = Some (inr series) ∧
    Z.of_nat (length series) = numberOfShifts + 1 ∧
    ∀ i, 0 <= i <= numberOfShifts →
      ∃ metric,
        series !! Z.to_nat i = Some metric ∧
        StronglySorted Z.lt (Timestamps metric) ∧
        length (Timestamps metric) = length (Values metric) ∧
        ∀ t v,
          In (t, v) (zip (Timestamps metric) (Values metric)) ↔
          (roundedStart StartTime Period <= t < EndTime ∧
           (t - roundedStart StartTime Period) mod Period = 0) ∧
          In (t - i * shiftInterval, v) (zip (Timestamps raw) (Values raw)).
Proof.
  intros HP Hvalid Hnodup Hlen.
  destruct (validate_shifts _ _ _ _ Hvalid) as (Hinterval & -> & Hshifts).
  destruct (handler_series StartTime EndTime Period _ _ _ _ raw HP Hvalid)
    as (series & Hhandler & Hall).
  exists series. split; [done |].
  pose proof (Forall2_length _ _ _ Hall) as Hlength. rewrite length_seqZ in Hlength.
  split; [lia |]. intros i Hi.
  assert (Hi' : seqZ 0 (numberOfShifts + 1) !! Z.to_nat i = Some i).
  { rewrite lookup_seqZ. split; lia. }
  destruct (Forall2_lookup_l _ _ _ _ _ Hall Hi') as (metric & Hmetric & Hshift).
  exists metric. split; [done |].
  destruct (shiftedMetric_grid (buildTimestampMap raw) (roundedStart StartTime Period)
              EndTime Period shiftInterval i HP) as (metric' & Hshift' & _ & Hts & Hvs).
  rewrite Hshift in Hshift'. injection Hshift' as <-.
  rewrite Hts, Hvs. split_and!.
  - apply sorted_timestamps, shiftedPoints_sorted, gridFrom_sorted, HP.
  - by rewrite !length_fmap.
  - intros t v. rewrite zip_fst_snd, In_shiftedPoints.
    rewrite (elem_of_grid _ _ _ _ HP), (buildTimestampMap_lookup raw) by done. done.
Qed.

Lemma every_shift_is_a_delayed_copy_witness :
  ∃ series,
    getMetricDataEventHandler 1000 1200 60 "PT1M" 1 Examples.minuteSeries
      = Some (inr series) ∧
    Z.of_nat (length series) = 1 + 1 ∧
    ∀ i, 0 <= i <= 1 →
      ∃ metric,
        series !! Z.to_nat i = Some metric ∧
        StronglySorted Z.lt (Timestamps metric) ∧
        length (Timestamps metric) = length (Values metric) ∧
        ∀ t v,
          In (t, v) (zip (Timestamps metric) (Values metric)) ↔
          (roundedStart 1000 60 <= t < 1200 ∧ (t - roundedStart 1000 60) mod 60 = 0) ∧
          In (t - i * 60, v)
            (zip (Timestamps Examples.minuteSeries) (Values Examples.minuteSeries)).
Proof.
  apply (every_shift_is_a_delayed_copy 1000 1200 60 "PT1M" 1 60 1 Examples.minuteSeries).
  - lia.
  - reflexivity.
  - apply sorted_NoDup_Z. repeat constructor.
  - reflexivity.
Defined.
End TimeShiftSeries.

(** ** Durations *)

Module DurationFormat.
Import TimeShift.

Lemma parse_digits_acc (d : Decimal.uint) (acc : positive) :
  fold_left (λ acc c, 10 * acc + digitValue c)
    (list_ascii_of_string (NilEmpty.string_of_uint d)) (Z.pos acc)
  = Z.pos (Pos.of_uint_acc d acc).
Proof.
  revert acc. induction d; intros acc; [done | ..];
    cbn [NilEmpty.string_of_uint list_ascii_of_string fold_left Pos.of_uint_acc];
    rewrite <- IHd; f_equal; unfold digitValue; simpl; lia.
Qed.

Lemma parse_digits (d : Decimal.uint) :
  fold_left (λ acc c, 10 * acc + digitValue c)
    (list_ascii_of_string (NilEmpty.string_of_uint d)) 0
  = Z.of_uint d.
Proof.
  unfold Z.of_uint. induction d; simpl; [done | exact IHd | apply parse_digits_acc ..].
Qed.

Lemma digits_of_uint (d : Decimal.uint) :
  Forall (λ c, isDigit c = true) (list_ascii_of_string (NilEmpty.string_of_uint d)).
Proof. induction d; simpl; by constructor. Qed.

Lemma takeDigits_app (ds : string) (c : ascii) (rest : string) :
  Forall (λ c, isDigit c = true) (list_ascii_of_string ds) →
  isDigit c = false →
  takeDigits (ds ++ String c rest) = (ds, String c rest).
Proof.
  intros Hds Hc. induction ds as [| x ds IH]; simpl.
  - by rewrite Hc.
  - inversion Hds as [| ? ? Hx Hrest]; subst. rewrite Hx, IH; done.
Qed.

Lemma takeDigits_all (ds : string) :
  Forall (λ c, isDigit c = true) (list_ascii_of_string ds) →
  takeDigits ds = (ds, EmptyString).
Proof.
  intros Hds. induction ds as [| x ds IH]; simpl; [done |].
  inversion Hds as [| ? ? Hx Hrest]; subst. rewrite Hx, IH; done.
Qed.

(** The decimal numeral of a natural number: a non-empty run of digits that
    [parseInt] reads back. *)
Lemma showZ_digits (n : Z) :
  0 <= n →
  Forall (λ c, isDigit c = true) (list_ascii_of_string (showZ n)) ∧
  (∃ c rest, showZ n = String c rest) ∧
  parseInt (showZ n) = n.
Proof.
  intros Hn. unfold showZ.
  assert (Hshape : ∃ d, Z.to_int n = Decimal.Pos d ∧ d ≠ Decimal.Nil).
  { destruct n as [| p | p]; [by eexists | | lia]. simpl. eexists. split; [done |].
    intros Hnil. pose proof (DecimalPos.Unsigned.of_to p) as Hp.
    rewrite Hnil in Hp. done. }
  destruct Hshape as (d & Hd & Hnil).
  pose proof (DecimalZ.of_to n) as Hback. rewrite Hd in Hback |- *. simpl in Hback.
  assert (Hstr : NilZero.string_of_int (Decimal.Pos d) = NilEmpty.string_of_uint d).
  { destruct d; done. }
  rewrite Hstr. split_and!.
  - apply digits_of_uint.
  - destruct d; [done | by eexists _, _ ..].
  - unfold parseInt. rewrite takeDigits_all by apply digits_of_uint. simpl.
    by rewrite parse_digits.
Qed.

Lemma durationGroup_numeral (letter : ascii) (n : Z) (rest : string) :
  0 <= n → isDigit letter = false →
  durationGroup letter (showZ n ++ String letter rest) = (Some (showZ n), rest).
Proof.
  intros Hn Hletter. destruct (showZ_digits n Hn) as (Hds & (c & ds & Hshow) & _).
  unfold durationGroup. rewrite takeDigits_app by done.
  rewrite Hshow. by rewrite Ascii.eqb_refl.
Qed.

Lemma skipT_numeral (n : Z) (rest : string) :
  0 <= n → skipT (String "T" (showZ n ++ rest)) = (showZ n ++ rest)%string.
Proof.
  intros Hn. destruct (showZ_digits n Hn) as (Hds & (c & ds & Hshow) & _).
  rewrite Hshow in Hds |- *. inversion Hds as [| ? ? Hc _]; subst. simpl.
  destruct (Ascii.eqb_spec c "T") as [-> | _]; done.
Qed.

Lemma secondsGroup_numeral (n : Z) :
  0 <= n → secondsGroup (showZ n ++ "S") = (Some (showZ n), EmptyString).
Proof.
  intros Hn. destruct (showZ_digits n Hn) as (Hds & (c & ds & Hshow) & _).
  unfold secondsGroup. rewrite (takeDigits_app _ "S" EmptyString) by done.
  by rewrite Hshow.
Qed.

(** X19: a duration written in full is read as its number of seconds: for
    whole numbers of days, hours, minutes and seconds, the string
    [P<d>DT<h>H<m>M<s>S] parses to [((d * 24 + h) * 60 + m) * 60 + s]. *)
Theorem duration_in_full_is_its_seconds (d h m s : Z) :
  0 <= d → 0 <= h → 0 <= m → 0 <= s →
  parseISO8601DurationString
    ("P" ++ showZ d ++ "DT" ++ showZ h ++ "H" ++ showZ m ++ "M" ++ showZ s ++ "S")
  = inr (((d * 24 + h) * 60 + m) * 60 + s).
Proof.
  intros Hd Hh Hm Hs. unfold parseISO8601DurationString, execDurationPattern.
  change ("P" ++ ?x)%string with (String "P" x).
  change ("DT" ++ ?x)%string with (String "D" (String "T" x)).
  change ("H" ++ ?x)%string with (String "H" x).
  change ("M" ++ ?x)%string with (String "M" x).
  cbv iota beta.
  rewrite durationGroup_numeral, skipT_numeral by done.
  rewrite !durationGroup_numeral by done.
  rewrite secondsGroup_numeral by done.
  change (Ascii.eqb "P" "P") with true. cbv iota. cbn [from_option].
  destruct (showZ_digits d Hd) as (_ & _ & ->).
  destruct (showZ_digits h Hh) as (_ & _ & ->).
  destruct (showZ_digits m Hm) as (_ & _ & ->).
  destruct (showZ_digits s Hs) as (_ & _ & ->). done.
Qed.

Lemma duration_in_full_is_its_seconds_witness :
  parseISO8601DurationString "P1DT2H3M4S" = inr 93784.
Proof.
  apply (duration_in_full_is_its_seconds 1 2 3 4); lia.
Defined.
End DurationFormat.

(** ** Moving average connector: the averaged series *)

Module MovingAverageRange.
Import MovingAverage MovingAverageFacts.

Lemma movingAverage_spec_sorted (m : gmap Z Q) (S P slots : Z) (times : list Z) :
  StronglySorted Z.lt times →
  StronglySorted Z.lt (movingAverage_spec m S P slots times).*1.
Proof.
  induction 1 as [| t times _ IH Ht]; [constructor |].
  unfold movingAverage_spec. cbn [omap list_omap].
  destruct (S <=? t); [| done].
  destruct (windowAverage m t P slots); [| done].
  simpl. constructor; [done |].
  apply Forall_forall. intros t' Hin. rewrite Forall_forall in Ht. apply Ht.
  apply list_elem_of_In in Hin.
  apply list_elem_of_In. by eapply OutputWindow.movingAverage_spec_timestamps.
Qed.

Lemma earliestOf_nonempty (timestamps : list Z) :
  timestamps ≠ [] → ∃ earliest, earliestOf timestamps = Some earliest.
Proof. destruct timestamps; [done | by eexists]. Qed.

(** The handler on an accepted request whose timer series is not empty:
    the walk anchored at the earliest timer timestamp. *)
Lemma handler_points (StartTime EndTime Period N : Z) (firstMetric secondMetric : MetricData) :
  0 < Period → 2 <= N →
  Timestamps (selectTimerData firstMetric secondMetric) ≠ [] →
  ∃ out earliest,
    getMetricDataEventHandler StartTime EndTime Period N firstMetric secondMetric
      = Some (inr [out]) ∧
    let points :=
      movingAverage_spec (buildTimestampMap (selectMetricData firstMetric secondMetric))
        StartTime Period (keptSlots earliest StartTime Period)
        (grid earliest EndTime Period) in
    Timestamps out = points.*1 ∧ Forall2 Qeq (Values out) points.*2.
Proof.
  intros HP HN Htimer.
  destruct (earliestOf_nonempty _ Htimer) as [earliest Hearliest].
  destruct (metricDataToMovingAverage_keptSlots
              (selectMetricData firstMetric secondMetric) earliest StartTime EndTime Period HP)
    as (out & Hout & _ & Hpoints).
  exists out, earliest. unfold getMetricDataEventHandler.
  destruct (Z.ltb_spec N 2) as [? | _]; [lia |].
  cbv zeta. by rewrite Hearliest, Hout.
Qed.

(** X21: the averaged series is well formed: its timestamps ascend
    strictly and each has exactly one value. *)
Theorem moving_average_series_well_formed (StartTime EndTime Period N : Z)
    (firstMetric secondMetric : MetricData) :
  0 < Period → 2 <= N →
  Timestamps (selectTimerData firstMetric secondMetric) ≠ [] →
  ∃ out,
    getMetricDataEventHandler StartTime EndTime Period N firstMetric secondMetric
      = Some (inr [out]) ∧
    StronglySorted Z.lt (Timestamps out) ∧
    length (Timestamps out) = length (Values out).
Proof.
  intros HP HN Htimer.
  destruct (handler_points StartTime EndTime Period N firstMetric secondMetric HP HN Htimer)
    as (out & earliest & Hout & Hts & Hvalues).
  exists out. split; [done |]. rewrite Hts. split.
  - apply movingAverage_spec_sorted, gridFrom_sorted, HP.
  - apply Forall2_length in Hvalues. by rewrite Hvalues, !length_fmap.
Qed.

Lemma moving_average_series_well_formed_witness :
  ∃ out,
    getMetricDataEventHandler 1000 1120 60 3 Examples.metricSeries Examples.fullTimer
      = Some (inr [out]) ∧
    StronglySorted Z.lt (Timestamps out) ∧
    length (Timestamps out) = length (Values out).
Proof.
  apply (moving_average_series_well_formed 1000 1120 60 3
           Examples.metricSeries Examples.fullTimer); [lia | lia | discriminate].
Defined.

(** X22: the order in which the backend lists the two series does not
    matter: with the metric series under the id [m1] and the timer series
    under the id [timer], the invocation returns the same result for either
    order. *)
Theorem backend_order_is_irrelevant (StartTime EndTime Period N : Z)
    (metric timer : MetricData) :
  Id metric = Some "m1"%string → Id timer = Some "timer"%string →
  getMetricDataEventHandler StartTime EndTime Period N timer metric
  = getMetricDataEventHandler StartTime EndTime Period N metric timer.
Proof.
  intros Hmetric Htimer. unfold getMetricDataEventHandler, selectMetricData, selectTimerData.
  rewrite Hmetric, Htimer.
  repeat (case_decide; try done).
Qed.

Lemma backend_order_is_irrelevant_witness :
  getMetricDataEventHandler 1000 1120 60 3 Examples.fullTimer Examples.metricSeries
  = getMetricDataEventHandler 1000 1120 60 3 Examples.metricSeries Examples.fullTimer.
Proof.
  apply (backend_order_is_irrelevant 1000 1120 60 3 Examples.metricSeries Examples.fullTimer);
    reflexivity.
Defined.
End MovingAverageRange.

(** ** The full metric name *)

Module FullMetricFacts.
Import FullMetric.

Lemma splitAux_length (sep : ascii) (s field : string) :
  length (splitAux sep s field)
  = S (count_occ ascii_dec (list_ascii_of_string s) sep).
Proof.
  revert field. induction s as [| c s IH]; intros field; [done |]. simpl.
  destruct (Ascii.eqb_spec c sep) as [-> | Hc].
  - destruct (ascii_dec sep sep); [| done]. simpl. by rewrite IH.
  - destruct (ascii_dec c sep); [done |]. apply IH.
Qed.

(** X23: a full metric name with an even number of commas, so with an odd
    number of fields or with only one, is rejected as a validation error,
    whatever the fields hold. *)
Theorem odd_field_count_is_validation_error (decodeURIComponent : string → Exn + string)
    (fullMetricString : string) :
  Nat.even (count_occ ascii_dec (list_ascii_of_string fullMetricString) ","%char) = true →
  parseFullMetric decodeURIComponent fullMetricString = inl (ValidationError malformed).
Proof.
  intros Heven. unfold parseFullMetric. cbv zeta.
  rewrite length_fmap. unfold split. rewrite splitAux_length.
  set (n := count_occ _ _ _) in *.
  assert (Hodd : (S n mod 2 =? 0)%nat = false).
  { apply Nat.eqb_neq. apply Nat.even_spec in Heven as [k ->].
    replace (S (2 * k))%nat with (1 + k * 2)%nat by lia.
    rewrite Nat.Div0.mod_add. done. }
  rewrite Hodd. simpl. by rewrite orb_true_r.
Qed.

Lemma odd_field_count_is_validation_error_witness :
  parseFullMetric (λ s, inr s) "AWS/Lambda, Duration, FunctionName"
  = inl (ValidationError malformed).
Proof.
  apply (odd_field_count_is_validation_error (λ s, inr s)
           "AWS/Lambda, Duration, FunctionName").
  reflexivity.
Defined.

Lemma string_app_assoc (a b c : string) : ((a ++ b) ++ c = a ++ (b ++ c))%string.
Proof.
  induction a as [| x a IH]; [done |].
  change (String x ((a ++ b) ++ c) = String x (a ++ (b ++ c)))%string. by f_equal.
Qed.

Lemma string_app_nil_r (a : string) : (a ++ "" = a)%string.
Proof.
  induction a as [| x a IH]; [done |].
  change (String x (a ++ "") = String x a)%string. by f_equal.
Qed.

Lemma splitAux_first_field (sep : ascii) (f rest acc : string) :
  ¬ In sep (list_ascii_of_string f) →
  splitAux sep (f ++ String sep rest) acc = (acc ++ f)%string :: splitAux sep rest EmptyString.
Proof.
  revert acc. induction f as [| c f IH]; intros acc Hf; simpl.
  - by rewrite Ascii.eqb_refl, string_app_nil_r.
  - destruct (Ascii.eqb_spec c sep) as [-> | _]; [exfalso; apply Hf; by left |].
    rewrite IH by (intros ?; apply Hf; by right).
    by rewrite string_app_assoc.
Qed.

Lemma splitAux_last (sep : ascii) (f acc : string) :
  ¬ In sep (list_ascii_of_string f) →
  splitAux sep f acc = [(acc ++ f)%string].
Proof.
  revert acc. induction f as [| c f IH]; intros acc Hf; simpl.
  - by rewrite string_app_nil_r.
  - destruct (Ascii.eqb_spec c sep) as [-> | _]; [exfalso; apply Hf; by left |].
    rewrite IH by (intros ?; apply Hf; by right).
    by rewrite string_app_assoc.
Qed.

Lemma split_commaSeparated (fields : list string) :
  fields ≠ [] →
  Forall (λ f, ¬ In ","%char (list_ascii_of_string f)) fields →
  split "," (commaSeparated fields) = fields.
Proof.
  intros Hne Hclean. unfold split.
  induction Hclean as [| f fields Hf Hclean IH]; [done |].
  destruct fields as [| g fields].
  - simpl. by rewrite splitAux_last.
  - change (commaSeparated (f :: g :: fields))
      with (f ++ String "," (commaSeparated (g :: fields)))%string.
    rewrite splitAux_first_field by done. by rewrite IH.
Qed.

Lemma dimensions_decoded (decodeURIComponent : string → Exn + string)
    (decode : string → string) (dims : list (string * string)) :
  (∀ s, decodeURIComponent s = inr (decode s)) →
  dimensions decodeURIComponent (trim <$> dimensionFields dims)
  = inr ((λ dim, {| Name := decode (trim dim.1); Value := decode (trim dim.2) |}) <$> dims).
Proof.
  intros Hdecode. induction dims as [| [name value] dims IH]; [done |].
  cbn [dimensionFields flat_map app fmap list_fmap dimensions fst snd].
  fold (dimensionFields dims). rewrite !Hdecode.
  change (list_fmap string string trim (dimensionFields dims))
    with (trim <$> dimensionFields dims).
  by rewrite IH.
Qed.

Lemma length_dimensionFields (dims : list (string * string)) :
  length (dimensionFields dims) = (length dims * 2)%nat.
Proof. induction dims as [| dim dims IH]; [done |]. simpl. rewrite IH. lia. Qed.

(** X24: a full metric name is read back field by field: for a namespace,
    a metric name and any number of dimension pairs, none holding a comma,
    written with commas between them, the parser returns the namespace, the
    metric name and one dimension per pair, in order, each field trimmed of
    surrounding white space and decoded. *)
Theorem full_metric_is_read_back (decodeURIComponent : string → Exn + string)
    (decode : string → string) (namespace metricName : string)
    (dims : list (string * string)) :
  (∀ s, decodeURIComponent s = inr (decode s)) →
  Forall (λ f, ¬ In ","%char (list_ascii_of_string f))
    (namespace :: metricName :: dimensionFields dims) →
  parseFullMetric decodeURIComponent
    (commaSeparated (namespace :: metricName :: dimensionFields dims))
  = inr {| Namespace := decode (trim namespace);
           MetricName := decode (trim metricName);
           Dimensions :=
             (λ dim, {| Name := decode (trim dim.1); Value := decode (trim dim.2) |})
               <$> dims |}.
Proof.
  intros Hdecode Hclean. unfold parseFullMetric. cbv zeta.
  rewrite split_commaSeparated by done.
  cbn [fmap list_fmap length nth drop].
  change (list_fmap string string trim (dimensionFields dims))
    with (trim <$> dimensionFields dims).
  rewrite length_fmap, length_dimensionFields. set (k := length dims).
  replace (S (S (k * 2)))%nat with (0 + (k + 1) * 2)%nat by lia.
  rewrite Nat.Div0.mod_add.
  replace (0 + (k + 1) * 2)%nat with (S (S (k * 2)))%nat by lia.
  change (0 mod 2)%nat with 0%nat.
  cbn [Nat.ltb Nat.leb Nat.eqb negb orb]. rewrite drop_0.
  rewrite !Hdecode, (dimensions_decoded _ decode) by done. done.
Qed.

Lemma full_metric_is_read_back_witness :
  parseFullMetric (λ s, inr s) "AWS/Lambda, Duration, FunctionName, checkout "
  = inr {| Namespace := "AWS/Lambda"; MetricName := "Duration";
           Dimensions := [ {| Name := "FunctionName"; Value := "checkout" |} ] |}.
Proof.
  apply (full_metric_is_read_back (λ s, inr s) (λ s, s) "AWS/Lambda" " Duration"
           [(" FunctionName", " checkout ")]%string).
  - done.
  - repeat constructor; vm_compute; intuition discriminate.
Defined.
End FullMetricFacts.
